(** * A shallow embedding of [server.js]

    The server is an Express application over one SQLite database with two
    tables, [levels] and [videos].  Every route handler issues one or two
    parameterised SQL statements and turns the outcome into a JSON response.

    The embedding follows that layering:
    - JavaScript values of a request body and the driver's parameter binding;
    - SQLite storage values, column affinity, comparison and ordering;
    - the database file and the start of the server on it: the two
      [CREATE TABLE] statements as the source spells them, of which the
      second does not parse, so that the server runs without a [videos]
      table unless the file already has one;
    - the two tables with their AUTOINCREMENT counters and the statements
      the handlers run, as functions on the database state, each with the
      error it can meet;
    - one function per route handler, from state and request to state and
      response.

    What the model covers and what it leaves out:
    - a number is an integer or a REAL given by its exact value; how SQLite
      reads a text as a number and how it writes a REAL as text are taken
      from an [Engine], of which only what the proofs need is assumed;
    - text is a sequence of bytes (UTF-8), compared bytewise as SQLite's
      BINARY collation does;
    - a statement fails when its table does not exist, on a violated
      constraint or when the rowids are used up; the [levels] table is
      there once the server has started, so a statement on it meets no
      other error; I/O errors are left out;
    - an integer is sent to and from JavaScript as it is, though JavaScript
      holds the integers beyond 2^53 only to the nearest double;
    - [CURRENT_TIMESTAMP] is an argument of the handlers that insert;
    - requests are handled one after the other, and what is written to the
      console is not recorded. *)

From Stdlib Require Import ZArith QArith Qround String Ascii List.
From Stdlib Require Import Sorted Permutation Lia.
From Stdlib Require Import DecimalString DecimalPos DecimalZ.
From stdpp Require Import base option list gmap strings.

Local Open Scope string_scope.
Local Open Scope Z_scope.
Local Open Scope list_scope.

(** ** Numbers *)

(** A REAL, by its exact value: every finite double is a rational. *)
Inductive real :=
  | Finite (q : Q)
  | Infinity (negative : bool).

#[global] Instance real_eq_dec : EqDecision real.
Proof.
  intros a b. unfold Decision.
  decide equality; [|apply bool_eq_dec].
  decide equality; [apply Pos.eq_dec | apply Z.eq_dec].
Defined.

Definition real_of_int (n : Z) : real := Finite (inject_Z n).

Definition real_leb (a b : real) : bool :=
  match a, b with
  | Infinity true, _ => true
  | _, Infinity false => true
  | Finite p, Finite q => Qle_bool p q
  | _, _ => false
  end.

Definition real_eqb (a b : real) : bool := real_leb a b && real_leb b a.

Definition int32 (n : Z) : bool := (-2147483648 <=? n) && (n <=? 2147483647).

Definition int64 (n : Z) : bool :=
  (-9223372036854775808 <=? n) && (n <=? 9223372036854775807).

(** The integer a REAL is stored as in a column of INTEGER affinity: its
    value when that is an integer strictly between the least and the largest
    integer of 64 bits. *)
Definition real_int (r : real) : option Z :=
  match r with
  | Finite q =>
      let n := Qfloor q in
      if Qeq_bool q (inject_Z n) && (-9223372036854775808 <? n) &&
         (n <? 9223372036854775807)
      then Some n else None
  | Infinity _ => None
  end.

(** What a text reads as under numeric affinity. *)
Inductive numeric :=
  | NInt (n : Z)
  | NReal (r : real).

(** Decimal rendering of an integer and the reading of an integer literal
    (an optional minus sign and digits). *)
Definition text_of_int (n : Z) : string :=
  NilZero.string_of_int (Z.to_int n).

Definition int_of_text (s : string) : option Z :=
  Z.of_int <$> NilZero.int_of_string s.

(** The part of SQLite that converts between text and numbers.
    [read_numeric] is the reading of a text under numeric affinity: an
    integer when the text is an integer literal that fits 64 bits, a REAL
    when it is any other well-formed number (["1.0"], ["1e2"], an integer
    literal too large for 64 bits), nothing otherwise; blanks around the
    number and a sign before it are allowed.  [text_of_real] is the text a
    REAL becomes in a column of TEXT affinity.  Two things are assumed of
    them: a text of digits with an optional minus sign, when its value fits
    64 bits, reads as that integer; and a REAL whose value is an integer of
    less than sixteen digits is written as that integer followed by
    [".0"]. *)
Class Engine := {
  read_numeric : string -> option numeric;
  text_of_real : real -> string;
  read_numeric_digits :
    forall (s : string) (n : Z),
      int_of_text s = Some n -> int64 n = true ->
      read_numeric s = Some (NInt n);
  text_of_real_int :
    forall n : Z,
      Z.abs n < 10 ^ 15 ->
      text_of_real (real_of_int n) = String.append (text_of_int n) ".0"
}.

(** The engine of the worked examples.  It reads a number as SQLite does:
    blanks, a sign, digits with at most one point among them, an exponent;
    a text without point and exponent whose value fits 64 bits is an
    integer, any other number a REAL.  The REAL has the exact value of the
    text where SQLite takes the nearest double, and a REAL that is not an
    integer of less than sixteen digits is written as a fraction where
    SQLite writes its decimals: the examples read and write no such REAL. *)
Definition is_blank (c : ascii) : bool :=
  let n := N_of_ascii c in ((9 <=? n) && (n <=? 13))%N || (n =? 32)%N.

Definition is_digit (c : ascii) : bool :=
  let n := N_of_ascii c in ((48 <=? n) && (n <=? 57))%N.

Fixpoint drop_blanks (l : list ascii) : list ascii :=
  match l with
  | c :: l' => if is_blank c then drop_blanks l' else l
  | [] => []
  end.

Definition trim_blanks (l : list ascii) : list ascii :=
  rev (drop_blanks (rev (drop_blanks l))).

(** The text before the first character that meets [p], and the text after
    it when there is one. *)
Fixpoint split_at (p : ascii -> bool) (l : list ascii)
  : list ascii * option (list ascii) :=
  match l with
  | [] => ([], None)
  | c :: l' =>
      if p c then ([], Some l')
      else let (before, after) := split_at p l' in (c :: before, after)
  end.

Fixpoint digits_value (acc : Z) (l : list ascii) : option Z :=
  match l with
  | [] => Some acc
  | c :: l' =>
      if is_digit c
      then digits_value (10 * acc + (Z.of_N (N_of_ascii c) - 48)) l'
      else None
  end.

Definition split_sign (l : list ascii) : bool * list ascii :=
  match l with
  | "-"%char :: l' => (true, l')
  | "+"%char :: l' => (false, l')
  | _ => (false, l)
  end.

(** [m * 10 ^ e] *)
Definition scaled (m e : Z) : Q :=
  if 0 <=? e then inject_Z (m * 10 ^ e) else Qmake m (Z.to_pos (10 ^ (- e))).

Definition read_signed (l : list ascii) : option numeric :=
  let (negative, l1) := split_sign l in
  let (mantissa, exponent) :=
    split_at (fun c => Ascii.eqb c "e" || Ascii.eqb c "E") l1 in
  let (whole, fraction) := split_at (fun c => Ascii.eqb c ".") mantissa in
  let digits := whole ++ default [] fraction in
  match digits, digits_value 0 digits with
  | _ :: _, Some m =>
      let m := if negative then - m else m in
      let places := Z.of_nat (length (default [] fraction)) in
      match exponent, fraction with
      | None, None =>
          Some (if int64 m then NInt m else NReal (Finite (inject_Z m)))
      | None, Some _ => Some (NReal (Finite (scaled m (- places))))
      | Some e, _ =>
          let (minus, e1) := split_sign e in
          match e1, digits_value 0 e1 with
          | _ :: _, Some x =>
              Some (NReal
                      (Finite (scaled m ((if minus then - x else x) - places))))
          | _, _ => None
          end
      end
  | _, _ => None
  end.

Definition read_decimal (s : string) : option numeric :=
  match int_of_text s with
  | Some n => Some (if int64 n then NInt n else NReal (real_of_int n))
  | None => read_signed (trim_blanks (list_ascii_of_string s))
  end.

Definition text_of_fraction (r : real) : string :=
  match r with
  | Finite q =>
      let n := Qfloor q in
      if Qeq_bool q (inject_Z n) && (Z.abs n <? 10 ^ 15)
      then String.append (text_of_int n) ".0"
      else String.append (text_of_int (Qnum q))
             (String.append "/" (text_of_int (Zpos (Qden q))))
  | Infinity negative => if negative then "-Inf" else "Inf"
  end.

#[global] Instance decimal_engine : Engine.
Proof.
  refine (Build_Engine read_decimal text_of_fraction _ _).
  - unfold read_decimal. intros s n -> ->. reflexivity.
  - intros n H. unfold text_of_fraction, real_of_int.
    rewrite Qfloor_Z, (proj2 (Qeq_bool_iff _ _) (Qeq_refl _)).
    apply Z.ltb_lt in H. rewrite H. reflexivity.
Defined.

(** ** JavaScript values *)

(** What a field of a parsed JSON body can hold.  [JUndefined] is what
    destructuring yields for a field the body does not have.  A number is
    given by its value: [JNum n] is the number whose value is the integer
    [n], and [JReal r], for [r] not an integer, the number whose value is
    [r]; no number is written [JReal r] with [r] an integer.  [JStr s] is
    a well-formed string, by its UTF-8 bytes;
    [JStrIll s] is a string that holds a lone surrogate, by the UTF-8 text
    the driver makes of it, with U+FFFD in the place of each lone surrogate
    (such a string is never empty).  [JObject s] is an array or an object,
    by the text the driver binds in its place. *)
Inductive jsval :=
  | JUndefined
  | JNull
  | JBool (b : bool)
  | JNum (n : Z)
  | JReal (r : real)
  | JStr (s : string)
  | JStrIll (utf8 : string)
  | JObject (text : string).

#[global] Instance jsval_eq_dec : EqDecision jsval.
Proof. solve_decision. Defined.

(** [req.body] is an object used as a map from field names to values. *)
Abbreviation jsobject := (gmap string jsval).

(** [const { k } = req.body]. *)
Definition field (body : jsobject) (k : string) : jsval :=
  default JUndefined (body !! k).

(** JavaScript truthiness, as tested by [if (!videoData)] and [if (!row)]. *)
Definition truthy (v : jsval) : bool :=
  match v with
  | JUndefined | JNull => false
  | JBool b => b
  | JNum n => negb (n =? 0)
  | JReal _ => true
  | JStr s => negb (String.eqb s "")
  | JStrIll _ => true
  | JObject _ => true
  end.

(** ** SQLite values *)

Inductive sqlval :=
  | SNull
  | SInt (n : Z)
  | SReal (r : real)
  | SText (s : string).

(** How the driver binds a JavaScript value to a [?] placeholder.  A
    parameter that is [undefined] is left unbound, and SQLite reads an
    unbound parameter as NULL.  A number is bound as an integer when it is
    an integer of 32 bits and as a double otherwise. *)
Definition bind_param (v : jsval) : sqlval :=
  match v with
  | JUndefined => SNull
  | JNull => SNull
  | JBool b => SInt (if b then 1 else 0)
  | JNum n => if int32 n then SInt n else SReal (real_of_int n)
  | JReal r => SReal r
  | JStr s => SText s
  | JStrIll s => SText s
  | JObject s => SText s
  end.

(** The JSON value a stored value is sent as in a response: a number by
    its value, an infinite REAL as [null]. *)
Definition json_of (v : sqlval) : jsval :=
  match v with
  | SNull => JNull
  | SInt n => JNum n
  | SReal (Finite q) =>
      if Qeq_bool q (inject_Z (Qfloor q)) then JNum (Qfloor q)
      else JReal (Finite q)
  | SReal (Infinity _) => JNull
  | SText s => JStr s
  end.

(** The value of a number as a REAL, for comparing numbers of either
    kind. *)
Definition to_real (v : sqlval) : real :=
  match v with
  | SInt n => real_of_int n
  | SReal r => r
  | _ => Finite 0
  end.

(** [a = b] in a WHERE or ON clause or in a UNIQUE index: NULL is equal to
    nothing, numbers are equal when their values are, texts when their bytes
    are, and a number is never equal to a text. *)
Definition sql_eq (a b : sqlval) : bool :=
  match a, b with
  | SText x, SText y => String.eqb x y
  | (SInt _ | SReal _), (SInt _ | SReal _) => real_eqb (to_real a) (to_real b)
  | _, _ => false
  end.

(** [ORDER BY]: NULL first, then numbers by value, then text bytewise. *)
Definition sql_leb (a b : sqlval) : bool :=
  match a, b with
  | SNull, _ => true
  | _, SNull => false
  | SText x, SText y => String.leb x y
  | SText _, _ => false
  | _, SText _ => true
  | _, _ => real_leb (to_real a) (to_real b)
  end.

(** [a < b] under the same order. *)
Definition sql_ltb (a b : sqlval) : bool := negb (sql_leb b a).

Definition is_null (v : sqlval) : bool :=
  match v with SNull => true | _ => false end.

(** A stable sort by insertion, rows with equal keys staying in scan
    order. *)
Fixpoint insert_row {A : Type} (leb : A -> A -> bool) (x : A) (l : list A)
  : list A :=
  match l with
  | [] => [x]
  | y :: l' => if leb x y then x :: y :: l' else y :: insert_row leb x l'
  end.

Definition order_by {A : Type} (leb : A -> A -> bool) (l : list A) : list A :=
  foldr (insert_row leb) [] l.

(** ** The tables *)

(** A row of [levels].  [id] is the INTEGER PRIMARY KEY, hence always an
    integer; the other columns hold whatever value their affinity left. *)
Module Level.
Record t := mk {
  id : Z;
  number : sqlval;
  title : sqlval;
  description : sqlval;
  icon : sqlval;
  status : sqlval;
  points : sqlval;
  created_at : string
}.
End Level.

(** A row of [videos]. *)
Module Video.
Record t := mk {
  id : Z;
  level_id : sqlval;
  title : sqlval;
  description : sqlval;
  filename : sqlval;
  file_size : sqlval;
  mime_type : sqlval;
  video_data : sqlval;
  created_at : string
}.
End Video.

(** A row of [SELECT v.*, l.number as level_number, l.title as level_title]. *)
Module Joined.
Record t := mk {
  video : Video.t;
  level_number : sqlval;
  level_title : sqlval
}.
End Joined.

(** A table as the file holds it: its rows in rowid order and the largest
    rowid AUTOINCREMENT has handed out so far (its [sqlite_sequence] entry,
    0 before the first insert). *)
Record level_table := mklt {
  lt_rows : list Level.t;
  lt_seq : Z
}.

Record video_table := mkvt {
  vt_rows : list Video.t;
  vt_seq : Z
}.

(** The database file: each table is there or not. *)
Record dbfile := mkfile {
  file_levels : option level_table;
  file_videos : option video_table
}.

(** A file that did not exist before the server opened it. *)
Definition fresh_file : dbfile := mkfile None None.

(** The database the handlers run on: the server has made sure of the
    [levels] table when it started; the [videos] table is there only if the
    file has one. *)
Record database := mkdb {
  levels : list Level.t;
  levels_seq : Z;
  videos_table : option video_table
}.

(** The rows and the counter of [videos], none when there is no table. *)
Definition videos (db : database) : list Video.t :=
  match videos_table db with
  | Some t => vt_rows t
  | None => []
  end.

Definition videos_seq (db : database) : Z :=
  match videos_table db with
  | Some t => vt_seq t
  | None => 0
  end.

Definition database_of (f : dbfile) : option database :=
  match file_levels f with
  | Some t => Some (mkdb (lt_rows t) (lt_seq t) (file_videos f))
  | None => None
  end.

Definition file_of (db : database) : dbfile :=
  mkfile (Some (mklt (levels db) (levels_seq db))) (videos_table db).

(** Both tables, empty. *)
Definition empty_database : database := mkdb [] 0 (Some (mkvt [] 0)).

Inductive sql_error :=
  | SyntaxError (near : string)
  | NoSuchTable (table : string)
  | SqliteFull
  | NotNullFailed (column : string)
  | UniqueFailed (column : string).

(** [err.message] *)
Definition message (e : sql_error) : string :=
  match e with
  | SyntaxError near =>
      String.append "SQLITE_ERROR: near "
        (String (ascii_of_nat 34)
           (String.append near
              (String (ascii_of_nat 34) ": syntax error")))
  | NoSuchTable t => String.append "SQLITE_ERROR: no such table: " t
  | SqliteFull => "SQLITE_FULL: database or disk is full"
  | NotNullFailed c =>
      String.append "SQLITE_CONSTRAINT: NOT NULL constraint failed: " c
  | UniqueFailed c =>
      String.append "SQLITE_CONSTRAINT: UNIQUE constraint failed: " c
  end.

Inductive result (A : Type) :=
  | Ok (a : A)
  | Err (e : sql_error).
Arguments Ok {A} a.
Arguments Err {A} e.

(** *** Creating the tables *)

(** The two statements of [initializeDatabase], as the source has them. *)
Definition create_levels_sql : string :=
  "CREATE TABLE IF NOT EXISTS levels (
    id INTEGER PRIMARY KEY AUTOINCREMENT,
    number INTEGER UNIQUE,
    title TEXT NOT NULL,
    description TEXT,
    icon TEXT,
    status TEXT DEFAULT 'locked',
    points INTEGER DEFAULT 100,
    created_at DATETIME DEFAULT CURRENT_TIMESTAMP
  )".

Definition create_videos_sql : string :=
  "CREATE TABLE IF NOT EXISTS videos (
        id INTEGER PRIMARY KEY AUTOINCREMENT,
        level_id INTEGER,
        title TEXT NOT NULL,
        description TEXT,
        filename TEXT,
        file_size INTEGER,
        mime_type TEXT,
        video_data TEXT,  // Store base64 encoded video
        created_at DATETIME DEFAULT CURRENT_TIMESTAMP,
        FOREIGN KEY (level_id) REFERENCES levels (id)
      )".

(** SQLite knows the comments [-- ...] and [/* ... */] only.  Anywhere else
    a [/] is the division operator, and no statement has two of them in a
    row: a text in which [//] occurs outside a quoted literal does not
    parse.  Neither of the two texts has a quoted literal with a [/]. *)
Fixpoint js_comment_in (sql : string) : bool :=
  match sql with
  | EmptyString => false
  | String c rest =>
      match rest with
      | EmptyString => false
      | String c' _ =>
          (Ascii.eqb c "/" && Ascii.eqb c' "/") || js_comment_in rest
      end
  end.

(** Preparing a statement: the text is parsed before anything is looked up
    or changed, so a text that does not parse fails whether or not its table
    exists. *)
Definition prepare (sql : string) : result unit :=
  if js_comment_in sql then Err (SyntaxError "/") else Ok tt.

(** [db.run] of a [CREATE TABLE IF NOT EXISTS]. *)
Definition db_run_create (sql : string) (create : dbfile -> dbfile)
    (f : dbfile) : result dbfile :=
  match prepare sql with
  | Err e => Err e
  | Ok _ => Ok (create f)
  end.

Definition create_levels (f : dbfile) : dbfile :=
  mkfile (Some (default (mklt [] 0) (file_levels f))) (file_videos f).

Definition create_videos (f : dbfile) : dbfile :=
  mkfile (file_levels f) (Some (default (mkvt [] 0) (file_videos f))).

(** *** AUTOINCREMENT *)

Definition max_rowid : Z := 9223372036854775807.

Definition largest_rowid (ids : list Z) : Z := foldr Z.max 0 ids.

(** The rowid of the next inserted row: one more than the largest rowid the
    table holds or has ever handed out; once the largest possible rowid has
    been used the insert fails. *)
Definition new_rowid (seq : Z) (ids : list Z) : result Z :=
  let m := Z.max seq (largest_rowid ids) in
  if max_rowid <=? m then Err SqliteFull else Ok (m + 1).

Section Server.
Context {sqlite : Engine}.

(** ** Affinity *)

(** Numeric affinity, as a comparison applies it to an operand: a text that
    reads as a number becomes that number. *)
Definition numeric_affinity (v : sqlval) : sqlval :=
  match v with
  | SText s =>
      match read_numeric s with
      | Some (NInt n) => SInt n
      | Some (NReal r) => SReal r
      | None => v
      end
  | _ => v
  end.

Definition integer_of_real (r : real) : sqlval :=
  match real_int r with
  | Some n => SInt n
  | None => SReal r
  end.

(** Column affinity.  A column declared INTEGER stores a text that reads as
    a number as that number, and a REAL whose value is an integer as that
    integer; a column declared TEXT stores a number as its text. *)
Definition affinity_integer (v : sqlval) : sqlval :=
  match numeric_affinity v with
  | SReal r => integer_of_real r
  | w => w
  end.

Definition affinity_text (v : sqlval) : sqlval :=
  match v with
  | SInt n => SText (text_of_int n)
  | SReal r => SText (text_of_real r)
  | _ => v
  end.

(** [col = ?] where [col] has INTEGER affinity and the parameter none:
    numeric affinity is applied to an operand that is a text, then the two
    are compared. *)
Definition int_column_eq (stored param : sqlval) : bool :=
  sql_eq (numeric_affinity stored) (numeric_affinity param).

(** ** The statements *)

(** [INSERT INTO levels (number, title, description, icon, status, points)
    VALUES (?, ?, ?, ?, ?, ?)].  The statement names every column but [id]
    and [created_at], so only those two are filled in by the table: a NULL
    bound to [status] or [points] is stored as NULL.  [title] is NOT NULL
    and [number] is UNIQUE (NULLs do not collide).  A failed insert leaves
    the database as it was. *)
Definition insert_level (db : database)
    (number title description icon status points : sqlval) (now : string)
  : result (Z * database) :=
  match new_rowid (levels_seq db) (Level.id <$> levels db) with
  | Err e => Err e
  | Ok rowid =>
      let row :=
        Level.mk rowid (affinity_integer number) (affinity_text title)
          (affinity_text description) (affinity_text icon)
          (affinity_text status) (affinity_integer points) now in
      if is_null (Level.title row) then Err (NotNullFailed "levels.title")
      else if existsb (fun r => sql_eq (Level.number r) (Level.number row))
                (levels db)
      then Err (UniqueFailed "levels.number")
      else Ok (rowid, mkdb (levels db ++ [row]) rowid (videos_table db))
  end.

(** [INSERT INTO videos (level_id, title, description, filename, file_size,
    mime_type, video_data) VALUES (?, ?, ?, ?, ?, ?, ?)].  Without the table
    the statement fails.  A table the file has is taken to have the columns
    [create_videos_sql] declares.  Foreign keys are not enforced on this
    connection, so [level_id] is not looked up. *)
Definition insert_video (db : database)
    (level_id title description filename file_size mime_type video_data
       : sqlval) (now : string)
  : result (Z * database) :=
  match videos_table db with
  | None => Err (NoSuchTable "videos")
  | Some t =>
      match new_rowid (vt_seq t) (Video.id <$> vt_rows t) with
      | Err e => Err e
      | Ok rowid =>
          let row :=
            Video.mk rowid (affinity_integer level_id) (affinity_text title)
              (affinity_text description) (affinity_text filename)
              (affinity_integer file_size) (affinity_text mime_type)
              (affinity_text video_data) now in
          if is_null (Video.title row)
          then Err (NotNullFailed "videos.title")
          else Ok (rowid,
                   mkdb (levels db) (levels_seq db)
                     (Some (mkvt (vt_rows t ++ [row]) rowid)))
      end
  end.

(** [WHERE id = ?] on either table. *)
Definition level_has_id (id : sqlval) (r : Level.t) : bool :=
  int_column_eq (SInt (Level.id r)) id.

Definition video_has_id (id : sqlval) (r : Video.t) : bool :=
  int_column_eq (SInt (Video.id r)) id.

(** [WHERE level_id = ?] *)
Definition video_in_level (level_id : sqlval) (r : Video.t) : bool :=
  int_column_eq (Video.level_id r) level_id.

(** [WHERE number = ?] *)
Definition level_has_number (number : sqlval) (r : Level.t) : bool :=
  int_column_eq (Level.number r) number.

(** [UPDATE levels SET number = ?, title = ?, description = ?, icon = ?,
    status = ?, points = ? WHERE id = ?].  The constraints are checked for
    the rows the statement changes, so nothing is checked when no row has
    the id. *)
Definition update_level (db : database)
    (number title description icon status points id : sqlval)
  : result database :=
  let set (r : Level.t) :=
    Level.mk (Level.id r) (affinity_integer number) (affinity_text title)
      (affinity_text description) (affinity_text icon)
      (affinity_text status) (affinity_integer points)
      (Level.created_at r) in
  if existsb (level_has_id id) (levels db) then
    if is_null (affinity_text title) then Err (NotNullFailed "levels.title")
    else if existsb (fun r => negb (level_has_id id r) &&
                              sql_eq (Level.number r) (affinity_integer number))
              (levels db)
    then Err (UniqueFailed "levels.number")
    else Ok (mkdb (map (fun r => if level_has_id id r then set r else r)
                     (levels db))
               (levels_seq db) (videos_table db))
  else Ok db.

(** [DELETE FROM videos WHERE level_id = ?] *)
Definition delete_videos_of_level (db : database) (level_id : sqlval)
  : result database :=
  match videos_table db with
  | None => Err (NoSuchTable "videos")
  | Some t =>
      Ok (mkdb (levels db) (levels_seq db)
            (Some (mkvt (filter (fun r => negb (video_in_level level_id r))
                           (vt_rows t))
                     (vt_seq t))))
  end.

(** [DELETE FROM levels WHERE id = ?].  The table is there, so the statement
    does not fail. *)
Definition delete_level (db : database) (id : sqlval) : database :=
  mkdb (filter (fun r => negb (level_has_id id r)) (levels db))
    (levels_seq db) (videos_table db).

(** [DELETE FROM videos WHERE id = ?] *)
Definition delete_video (db : database) (id : sqlval) : result database :=
  match videos_table db with
  | None => Err (NoSuchTable "videos")
  | Some t =>
      Ok (mkdb (levels db) (levels_seq db)
            (Some (mkvt (filter (fun r => negb (video_has_id id r))
                           (vt_rows t))
                     (vt_seq t))))
  end.

(** [SELECT * FROM levels ORDER BY number] *)
Definition select_levels (db : database) : list Level.t :=
  order_by (fun a b => sql_leb (Level.number a) (Level.number b)) (levels db).

(** [db.get] hands the callback the first row of the result, or
    [undefined] when there is none. *)
Definition first_row {A : Type} (rows : list A) : option A := head rows.

(** [SELECT * FROM levels WHERE id = ?] *)
Definition select_level (db : database) (id : sqlval) : list Level.t :=
  filter (fun r => level_has_id id r) (levels db).

(** [SELECT id FROM levels WHERE number = ?] *)
Definition select_level_ids_by_number (db : database) (number : sqlval)
  : list Z :=
  Level.id <$> filter (fun r => level_has_number number r) (levels db).

(** [SELECT * FROM videos WHERE id = ?] *)
Definition select_video (db : database) (id : sqlval)
  : result (list Video.t) :=
  match videos_table db with
  | None => Err (NoSuchTable "videos")
  | Some t => Ok (filter (fun r => video_has_id id r) (vt_rows t))
  end.

(** [SELECT * FROM videos WHERE level_id = ?] *)
Definition select_videos_of_level (db : database) (level_id : sqlval)
  : result (list Video.t) :=
  match videos_table db with
  | None => Err (NoSuchTable "videos")
  | Some t => Ok (filter (fun r => video_in_level level_id r) (vt_rows t))
  end.

(** [FROM videos v LEFT JOIN levels l ON v.level_id = l.id]: a video is
    paired with every level whose id its [level_id] equals, and with NULLs
    when there is none.  Both columns have INTEGER affinity, so the values
    are compared as stored. *)
Definition joined_with (v : Video.t) (l : Level.t) : Joined.t :=
  Joined.mk v (Level.number l) (Level.title l).

Definition left_join (v : Video.t) (ls : list Level.t) : list Joined.t :=
  match filter (fun l => sql_eq (Video.level_id v) (SInt (Level.id l))) ls with
  | [] => [Joined.mk v SNull SNull]
  | matches => joined_with v <$> matches
  end.

(** [ORDER BY l.number, v.title] *)
Definition joined_leb (a b : Joined.t) : bool :=
  sql_ltb (Joined.level_number a) (Joined.level_number b) ||
  (sql_leb (Joined.level_number a) (Joined.level_number b) &&
   sql_leb (Video.title (Joined.video a)) (Video.title (Joined.video b))).

(** [SELECT v.*, l.number as level_number, l.title as level_title FROM
    videos v LEFT JOIN levels l ON v.level_id = l.id ORDER BY l.number,
    v.title] *)
Definition select_videos_joined (db : database) : result (list Joined.t) :=
  match videos_table db with
  | None => Err (NoSuchTable "videos")
  | Some t =>
      Ok (order_by joined_leb
            (flat_map (fun v => left_join v (levels db)) (vt_rows t)))
  end.

(** ** Responses *)

(** The JSON bodies the handlers send. *)
Inductive json :=
  | JsonError (error : string)
  | JsonMessage (msg : string)
  | JsonCreated (id : Z) (msg : string)
  | JsonLevel (row : option Level.t)
  | JsonLevels (rows : list Level.t)
  | JsonVideo (row : Video.t)
  | JsonVideos (rows : list Video.t)
  | JsonJoined (rows : list Joined.t).

Record response := mkres {
  res_status : Z;
  res_body : json
}.

(** [res.json(body)] *)
Definition res_json (body : json) : response := mkres 200 body.

(** [res.status(code).json(body)] *)
Definition res_status_json (code : Z) (body : json) : response :=
  mkres code body.

(** ** Sample data *)

Definition sampleLevels : list jsobject :=
  [ list_to_map
      [("number", JNum 1); ("title", JStr "Festivals & Celebrations");
       ("description", JStr "Explore the vibrant festivals of India");
       ("icon", JStr "🎉"); ("status", JStr "available");
       ("points", JNum 100)];
    list_to_map
      [("number", JNum 2); ("title", JStr "Folk Arts & Music");
       ("description", JStr "Discover India's rich folk arts and music");
       ("icon", JStr "🎨"); ("status", JStr "locked");
       ("points", JNum 150)];
    list_to_map
      [("number", JNum 3); ("title", JStr "Mythology & Epics");
       ("description", JStr "Journey through Indian mythology and epics");
       ("icon", JStr "📖"); ("status", JStr "locked");
       ("points", JNum 200)] ].

(** The body of the [forEach] callback: look the level's number up and
    insert the level when no row has it.  A failed insert is logged and
    changes nothing. *)
Definition insertSampleLevel (now : string) (db : database) (level : jsobject)
  : database :=
  match first_row
          (select_level_ids_by_number db (bind_param (field level "number")))
  with
  | Some _ => db
  | None =>
      match insert_level db
              (bind_param (field level "number"))
              (bind_param (field level "title"))
              (bind_param (field level "description"))
              (bind_param (field level "icon"))
              (bind_param (field level "status"))
              (bind_param (field level "points")) now with
      | Ok (_, db') => db'
      | Err _ => db
      end
  end.

(** [insertSampleData]: [sampleLevels.forEach] issues the three lookups
    one after the other, and the callback of each lookup inserts its level
    when no row was found.  The driver runs the statements of this
    connection without an order among them, so the code does not fix the
    order in which the callbacks run: [order] is that order, a permutation
    of [sampleLevels].  A lookup is not changed by what the callbacks of the
    other levels insert ([run_seeding] below spells the schedules out), so
    each level is here looked up when its turn to be inserted comes.
    [clock level] is [CURRENT_TIMESTAMP] at the insert of [level]. *)
Definition insertSampleData (order : list jsobject)
    (clock : jsobject -> string) (db : database) : database :=
  foldl (fun d l => insertSampleLevel (clock l) d l) db order.

(** [initializeDatabase]: create [levels]; when that went well create
    [videos]; when that went well too, seed.  An error is logged and ends
    the start there.  (The seeding has a [levels] table to work on whenever
    it is reached.) *)
Definition initializeDatabase (order : list jsobject)
    (clock : jsobject -> string) (f : dbfile) : dbfile :=
  match db_run_create create_levels_sql create_levels f with
  | Err _ => f
  | Ok f1 =>
      match db_run_create create_videos_sql create_videos f1 with
      | Err _ => f1
      | Ok f2 =>
          match database_of f2 with
          | Some db => file_of (insertSampleData order clock db)
          | None => f2
          end
      end
  end.

(** The statements of a seeding as the driver may schedule them: the lookup
    of a level, and the insert its callback issues when the lookup found no
    row. *)
Inductive seeding_event :=
  | Lookup (level : jsobject)
  | Insert (level : jsobject).

(** One statement of the seeding.  The state is the database together with
    the levels whose lookup found no row and whose insert is still to
    run. *)
Definition seeding_step (clock : jsobject -> string)
    (st : database * list jsobject) (e : seeding_event)
  : database * list jsobject :=
  match e with
  | Lookup level =>
      match first_row
              (select_level_ids_by_number st.1
                 (bind_param (field level "number"))) with
      | Some _ => st
      | None => (st.1, level :: st.2)
      end
  | Insert level =>
      if bool_decide (level ∈ st.2) then
        (match insert_level st.1
                 (bind_param (field level "number"))
                 (bind_param (field level "title"))
                 (bind_param (field level "description"))
                 (bind_param (field level "icon"))
                 (bind_param (field level "status"))
                 (bind_param (field level "points")) (clock level) with
         | Ok (_, db') => db'
         | Err _ => st.1
         end,
         filter (fun l => l <> level) st.2)
      else st
  end.

Definition run_seeding (clock : jsobject -> string) (db : database)
    (events : list seeding_event) : database :=
  (foldl (seeding_step clock) (db, []) events).1.

(** The database the handlers find once the server has started on a new
    file.  (The order and the times given to the seeding play no part: the
    start does not reach it.) *)
Definition started : database :=
  match
    database_of (initializeDatabase sampleLevels (fun _ => "") fresh_file)
  with
  | Some db => db
  | None => mkdb [] 0 None
  end.

(** ** Route handlers *)

(** [app.get('/api/levels')] *)
Definition get_api_levels (db : database) : response :=
  res_json (JsonLevels (select_levels db)).

(** [app.get('/api/levels/:id')]: the row is sent as it is, also when it is
    [undefined]. *)
Definition get_api_levels_id (db : database) (id : string) : response :=
  res_json (JsonLevel (first_row (select_level db (bind_param (JStr id))))).

(** [app.post('/api/levels')] *)
Definition post_api_levels (db : database) (body : jsobject) (now : string)
  : database * response :=
  let number := field body "number" in
  let title := field body "title" in
  let description := field body "description" in
  let icon := field body "icon" in
  let status := field body "status" in
  let points := field body "points" in
  match insert_level db (bind_param number) (bind_param title)
          (bind_param description) (bind_param icon) (bind_param status)
          (bind_param points) now with
  | Err err => (db, res_status_json 500 (JsonError (message err)))
  | Ok (lastID, db') =>
      (db', res_json (JsonCreated lastID "Level created successfully"))
  end.

(** [app.put('/api/levels/:id')] *)
Definition put_api_levels_id (db : database) (id : string) (body : jsobject)
  : database * response :=
  let number := field body "number" in
  let title := field body "title" in
  let description := field body "description" in
  let icon := field body "icon" in
  let status := field body "status" in
  let points := field body "points" in
  match update_level db (bind_param number) (bind_param title)
          (bind_param description) (bind_param icon) (bind_param status)
          (bind_param points) (bind_param (JStr id)) with
  | Err err => (db, res_status_json 500 (JsonError (message err)))
  | Ok db' => (db', res_json (JsonMessage "Level updated successfully"))
  end.

(** [app.delete('/api/levels/:id')]: first the videos of the level; when
    that fails the handler answers 500 and returns, otherwise it goes on to
    delete the level. *)
Definition delete_api_levels_id (db : database) (id : string)
  : database * response :=
  match delete_videos_of_level db (bind_param (JStr id)) with
  | Err err => (db, res_status_json 500 (JsonError (message err)))
  | Ok db1 =>
      (delete_level db1 (bind_param (JStr id)),
       res_json
         (JsonMessage "Level and associated videos deleted successfully"))
  end.

(** [app.get('/api/videos')] *)
Definition get_api_videos (db : database) : response :=
  match select_videos_joined db with
  | Err err => res_status_json 500 (JsonError (message err))
  | Ok rows => res_json (JsonJoined rows)
  end.

(** [app.get('/api/videos/level/:levelId')] *)
Definition get_api_videos_level (db : database) (levelId : string)
  : response :=
  match select_videos_of_level db (bind_param (JStr levelId)) with
  | Err err => res_status_json 500 (JsonError (message err))
  | Ok rows => res_json (JsonVideos rows)
  end.

(** [app.post('/api/videos')] *)
Definition post_api_videos (db : database) (body : jsobject) (now : string)
  : database * response :=
  let level_id := field body "level_id" in
  let title := field body "title" in
  let description := field body "description" in
  let videoData := field body "videoData" in
  let filename := field body "filename" in
  let fileSize := field body "fileSize" in
  let mimeType := field body "mimeType" in
  if negb (truthy videoData) then
    (db, res_status_json 400 (JsonError "No video data provided"))
  else
    match insert_video db (bind_param level_id) (bind_param title)
            (bind_param description) (bind_param filename)
            (bind_param fileSize) (bind_param mimeType)
            (bind_param videoData) now with
    | Err err => (db, res_status_json 500 (JsonError (message err)))
    | Ok (lastID, db') =>
        (db', res_json (JsonCreated lastID "Video uploaded successfully"))
    end.

(** [app.get('/api/videos/:id')] *)
Definition get_api_videos_id (db : database) (id : string) : response :=
  match select_video db (bind_param (JStr id)) with
  | Err err => res_status_json 500 (JsonError (message err))
  | Ok rows =>
      match first_row rows with
      | None => res_status_json 404 (JsonError "Video not found")
      | Some row => res_json (JsonVideo row)
      end
  end.

(** [app.delete('/api/videos/:id')] *)
Definition delete_api_videos_id (db : database) (id : string)
  : database * response :=
  match delete_video db (bind_param (JStr id)) with
  | Err err => (db, res_status_json 500 (JsonError (message err)))
  | Ok db' => (db', res_json (JsonMessage "Video deleted successfully"))
  end.

(** The databases the server can hold: what it starts with on a new file, or
    on a file whose two tables are there and empty (a file prepared by other
    means: the start of this server makes no [videos] table), and whatever
    a run of the seeding or a writing handler makes of a reachable one. *)
Inductive reachable : database -> Prop :=
  | reach_empty : reachable empty_database
  | reach_started : reachable started
  | reach_seed order clock db :
      order ≡ₚ sampleLevels -> reachable db ->
      reachable (insertSampleData order clock db)
  | reach_post_level db body now :
      reachable db -> reachable (post_api_levels db body now).1
  | reach_put_level db id body :
      reachable db -> reachable (put_api_levels_id db id body).1
  | reach_delete_level db id :
      reachable db -> reachable (delete_api_levels_id db id).1
  | reach_post_video db body now :
      reachable db -> reachable (post_api_videos db body now).1
  | reach_delete_video db id :
      reachable db -> reachable (delete_api_videos_id db id).1.

(** One thing the server does to the database: a run of the seeding, or one
    request to a route that writes. *)
Inductive handles : database -> database -> Prop :=
  | handles_seed order clock db :
      order ≡ₚ sampleLevels -> handles db (insertSampleData order clock db)
  | handles_post_level db body now :
      handles db (post_api_levels db body now).1
  | handles_put_level db id body :
      handles db (put_api_levels_id db id body).1
  | handles_delete_level db id :
      handles db (delete_api_levels_id db id).1
  | handles_post_video db body now :
      handles db (post_api_videos db body now).1
  | handles_delete_video db id :
      handles db (delete_api_videos_id db id).1.

(** ** What the properties speak of *)

(** The text of a route parameter names this row's id: it reads as a number
    whose value is the id. *)
Definition names_id (param : string) (id : Z) : Prop :=
  match read_numeric param with
  | Some (NInt n) => real_eqb (real_of_int id) (real_of_int n) = true
  | Some (NReal r) => real_eqb (real_of_int id) r = true
  | None => False
  end.

#[global] Instance names_id_dec (param : string) (id : Z) :
  Decision (names_id param id).
Proof.
  unfold names_id. destruct (read_numeric param) as [[n|r]|]; apply _.
Defined.

(** No row of the table has the id a route parameter names. *)
Definition no_level_named (db : database) (id : string) : Prop :=
  Forall (fun r => ~ names_id id (Level.id r)) (levels db).

Definition no_video_named (db : database) (id : string) : Prop :=
  Forall (fun r => ~ names_id id (Video.id r)) (videos db).

(** The file has a [videos] table. *)
Definition has_videos_table (db : database) : Prop :=
  videos_table db <> None.

(** The seeded store of the scenarios: the two tables, empty, after a run of
    the seeding whose inserts came in the order of the array.  (It is not
    the database of a started server, which never seeds.) *)
Definition seeded (now : string) : database :=
  insertSampleData sampleLevels (fun _ => now) empty_database.

(** The request body of the "Dance Forms" scenario. *)
Definition dance_forms : jsobject :=
  list_to_map
    [("number", JNum 4); ("title", JStr "Dance Forms"); ("points", JNum 120)].

(** A small upload. *)
Definition clip (payload : jsval) : jsobject :=
  list_to_map
    [("level_id", JNum 1); ("title", JStr "Diwali"); ("videoData", payload);
     ("filename", JStr "diwali.mp4"); ("fileSize", JNum 4);
     ("mimeType", JStr "video/mp4")].

(** A stored video for the listing examples. *)
Definition clip_of (level_id : jsval) (title : string) : jsobject :=
  <["level_id" := level_id]> (<["title" := JStr title]> (clip (JStr "AAAA"))).

(** A database with three levels and three videos, one of them of a level
    that does not exist. *)
Definition library : database :=
  let db0 := seeded "2024-01-01 00:00:00" in
  let db1 := (post_api_videos db0 (clip_of (JNum 3) "Ramayana") "t1").1 in
  let db2 := (post_api_videos db1 (clip_of (JNum 9) "Lost") "t2").1 in
  (post_api_videos db2 (clip_of (JNum 1) "Holi") "t3").1.

(** The database of the server started on a new file, after one level has
    been created. *)
Definition one_level (now : string) : database :=
  (post_api_levels started dance_forms now).1.

(** The row the seeding step makes of a sample level. *)
Definition sample_row (id : Z) (level : jsobject) (now : string) : Level.t :=
  Level.mk id
    (affinity_integer (bind_param (field level "number")))
    (affinity_text (bind_param (field level "title")))
    (affinity_text (bind_param (field level "description")))
    (affinity_text (bind_param (field level "icon")))
    (affinity_text (bind_param (field level "status")))
    (affinity_integer (bind_param (field level "points"))) now.

(** The seeding step finds nothing to do for a sample level: its number is
    taken, or the insert would be refused. *)
Definition settled (db : database) (level : jsobject) : bool :=
  match new_rowid (levels_seq db) (Level.id <$> levels db) with
  | Err _ => true
  | Ok _ =>
      is_null (affinity_text (bind_param (field level "title"))) ||
      existsb (level_has_number (bind_param (field level "number")))
        (levels db)
  end.

(** The rows are ascending in a key: a row never comes before one with a
    smaller key. *)
Definition ascending {A : Type} (key : A -> sqlval) (rows : list A) : Prop :=
  forall (i j : nat) (a b : A),
    (i < j)%nat -> rows !! i = Some a -> rows !! j = Some b ->
    sql_leb (key a) (key b) = true.

(** Among rows with the same first key, the rows are ascending in a second
    key. *)
Definition then_ascending {A : Type} (key1 key2 : A -> sqlval)
    (rows : list A) : Prop :=
  forall (i j : nat) (a b : A),
    (i < j)%nat -> rows !! i = Some a -> rows !! j = Some b ->
    key1 a = key1 b -> sql_leb (key2 a) (key2 b) = true.

(** The PRIMARY KEY of either table: no two rows share an id. *)
Definition primary_key (db : database) : Prop :=
  NoDup (Level.id <$> levels db) /\ NoDup (Video.id <$> videos db).

(** The inserts of a schedule, in the order in which they run, and what
    makes a list of statements a schedule of the seeding: every level is
    looked up at most once, and its insert runs at most once and after its
    lookup.  [looked] and [inserted] are the levels already looked up and
    inserted. *)
Definition inserts (events : list seeding_event) : list jsobject :=
  omap (fun e => match e with Insert l => Some l | Lookup _ => None end)
    events.

Fixpoint scheduled (looked inserted : list jsobject)
    (events : list seeding_event) : Prop :=
  match events with
  | [] => True
  | Lookup l :: events' =>
      (l ∈ sampleLevels) /\ (l ∉ looked) /\
      scheduled (l :: looked) inserted events'
  | Insert l :: events' =>
      (l ∈ looked) /\ (l ∉ inserted) /\
      scheduled looked (l :: inserted) events'
  end.

Definition schedule (events : list seeding_event) : Prop :=
  scheduled [] [] events.

(** The row [INSERT INTO levels] makes of a request body, and the row
    [UPDATE levels] makes of a stored row and a request body. *)
Definition created_level (id : Z) (body : jsobject) (now : string) : Level.t :=
  sample_row id body now.

Definition replaced_level (r : Level.t) (body : jsobject) : Level.t :=
  sample_row (Level.id r) body (Level.created_at r).

(** What [UPDATE levels ... WHERE id = ?] does to one row. *)
Definition replace_if_named (id : string) (body : jsobject) (r : Level.t)
  : Level.t :=
  if level_has_id (SText id) r then replaced_level r body else r.

(** The row [INSERT INTO videos] makes of a request body. *)
Definition created_video (id : Z) (body : jsobject) (now : string) : Video.t :=
  Video.mk id
    (affinity_integer (bind_param (field body "level_id")))
    (affinity_text (bind_param (field body "title")))
    (affinity_text (bind_param (field body "description")))
    (affinity_text (bind_param (field body "filename")))
    (affinity_integer (bind_param (field body "fileSize")))
    (affinity_text (bind_param (field body "mimeType")))
    (affinity_text (bind_param (field body "videoData"))) now.

(** The largest rowid a table has used, and whether [n] more are left. *)
Definition used_rowid (seq : Z) (ids : list Z) : Z :=
  Z.max seq (largest_rowid ids).

Definition levels_room (n : Z) (db : database) : Prop :=
  used_rowid (levels_seq db) (Level.id <$> levels db) + n <= max_rowid.

Definition videos_room (n : Z) (db : database) : Prop :=
  used_rowid (videos_seq db) (Video.id <$> videos db) + n <= max_rowid.

(** Rowids as AUTOINCREMENT hands them out: positive, growing along the
    table, none above the counter. *)
Definition rowids_in_order (seq : Z) (ids : list Z) : Prop :=
  StronglySorted Z.lt ids /\ Forall (fun i => 0 < i <= seq) ids.

(** No two rows hold the same number; NULL does not count as a number. *)
Fixpoint numbers_distinct (ls : list Level.t) : Prop :=
  match ls with
  | [] => True
  | r :: ls' =>
      Forall (fun r' => sql_eq (Level.number r) (Level.number r') = false) ls'
      /\ numbers_distinct ls'
  end.

Definition is_text (v : sqlval) : Prop := exists s, v = SText s.

(** A value as a column of INTEGER affinity holds it: the affinity has
    nothing left to change.  So the column holds no text that reads as a
    number and no REAL that an integer stands for. *)
Definition stored_integer (v : sqlval) : Prop := affinity_integer v = v.

(** Every [number] is held as the column holds it. *)
Definition numbers_stored (db : database) : Prop :=
  Forall (fun r => stored_integer (Level.number r)) (levels db).

(** What the schema keeps of every database the server makes: rowids in
    order in both tables, a text in every [title], no number held twice,
    and every [number] as its column holds it. *)
Definition well_formed (db : database) : Prop :=
  rowids_in_order (levels_seq db) (Level.id <$> levels db) /\
  rowids_in_order (videos_seq db) (Video.id <$> videos db) /\
  Forall (fun r => is_text (Level.title r)) (levels db) /\
  Forall (fun v => is_text (Video.title v)) (videos db) /\
  numbers_distinct (levels db) /\
  numbers_stored db.

(** The three sample levels by name. *)
Definition festivals : jsobject :=
  list_to_map
    [("number", JNum 1); ("title", JStr "Festivals & Celebrations");
     ("description", JStr "Explore the vibrant festivals of India");
     ("icon", JStr "🎉"); ("status", JStr "available");
     ("points", JNum 100)].

Definition folk_arts : jsobject :=
  list_to_map
    [("number", JNum 2); ("title", JStr "Folk Arts & Music");
     ("description", JStr "Discover India's rich folk arts and music");
     ("icon", JStr "🎨"); ("status", JStr "locked");
     ("points", JNum 150)].

Definition mythology : jsobject :=
  list_to_map
    [("number", JNum 3); ("title", JStr "Mythology & Epics");
     ("description", JStr "Journey through Indian mythology and epics");
     ("icon", JStr "📖"); ("status", JStr "locked");
     ("points", JNum 200)].

(** The row "Dance Forms" becomes on the database of a started server. *)
Definition dance_forms_row (now : string) : Level.t :=
  Level.mk 1 (SInt 4) (SText "Dance Forms") SNull SNull SNull (SInt 120) now.

(** The error every statement on [videos] meets when the table is not
    there. *)
Definition no_videos_table : response :=
  mkres 500 (JsonError "SQLITE_ERROR: no such table: videos").

(** The value a [level_id] column must hold for [WHERE level_id = ?] to
    select the row, the parameter being the text of a route: a number of
    the value the text reads as, or the very text when it reads as no
    number. *)
Definition level_id_is (param : string) (v : sqlval) : Prop :=
  match read_numeric param with
  | Some n =>
      match numeric_affinity v with
      | SInt _ | SReal _ =>
          real_eqb (to_real (numeric_affinity v))
            (match n with NInt k => real_of_int k | NReal r => r end) = true
      | _ => False
      end
  | None => v = SText param
  end.


(** * Properties *)

(** ** Numbers, values, affinity and order *)

Lemma int_of_text_of_int (n : Z) : int_of_text (text_of_int n) = Some n.
Proof.
  unfold int_of_text, text_of_int.
  rewrite NilZero.isi.
  - cbn. f_equal. apply DecimalZ.of_to.
  - destruct n as [|p|p]; cbn; [discriminate| |discriminate].
    intros [= H]. exact (DecimalPos.Unsigned.to_uint_nonnil p H).
  - destruct n as [|p|p]; cbn; [discriminate|discriminate|].
    intros [= H]. exact (DecimalPos.Unsigned.to_uint_nonnil p H).
Qed.

Lemma real_leb_refl (a : real) : real_leb a a = true.
Proof.
  destruct a as [q|[]]; cbn; try reflexivity.
  apply Qle_bool_iff, Qle_refl.
Qed.

Lemma real_leb_total (a b : real) :
  real_leb a b = true \/ real_leb b a = true.
Proof.
  destruct a as [p|[]], b as [q|[]]; cbn; auto.
  rewrite !Qle_bool_iff.
  destruct (Qlt_le_dec p q) as [H|H];
    [left; apply Qlt_le_weak, H | right; exact H].
Qed.

Lemma real_leb_trans (a b c : real) :
  real_leb a b = true -> real_leb b c = true -> real_leb a c = true.
Proof.
  destruct a as [p|[]], b as [q|[]], c as [r|[]]; cbn; try congruence.
  rewrite !Qle_bool_iff. apply Qle_trans.
Qed.

Lemma real_leb_ints (x y : Z) :
  real_leb (real_of_int x) (real_of_int y) = (x <=? y).
Proof.
  cbn. unfold Qle_bool. cbn. rewrite !Z.mul_1_r. reflexivity.
Qed.

Lemma real_eqb_ints (x y : Z) :
  real_eqb (real_of_int x) (real_of_int y) = (x =? y).
Proof.
  unfold real_eqb. rewrite !real_leb_ints.
  destruct (Z.eqb_spec x y), (Z.leb_spec x y), (Z.leb_spec y x);
    try reflexivity; lia.
Qed.

Lemma real_eqb_refl (a : real) : real_eqb a a = true.
Proof. unfold real_eqb. rewrite real_leb_refl. reflexivity. Qed.

Lemma real_eqb_sym (a b : real) : real_eqb a b = real_eqb b a.
Proof. unfold real_eqb. apply andb_comm. Qed.

Lemma real_eqb_trans (a b c : real) :
  real_eqb a b = true -> real_eqb b c = true -> real_eqb a c = true.
Proof.
  unfold real_eqb.
  intros [H1 H2]%andb_true_iff [H3 H4]%andb_true_iff.
  apply andb_true_iff. split; eapply real_leb_trans; eassumption.
Qed.

(** Two integers with the value of the same number are the same. *)
Lemma real_eqb_int_inj (a : real) (x y : Z) :
  real_eqb a (real_of_int x) = true -> real_eqb a (real_of_int y) = true ->
  x = y.
Proof.
  intros Hx Hy. apply Z.eqb_eq. rewrite <- real_eqb_ints.
  rewrite real_eqb_sym in Hx. exact (real_eqb_trans _ _ _ Hx Hy).
Qed.

Lemma sql_eq_ints (x y : Z) : sql_eq (SInt x) (SInt y) = (x =? y).
Proof. apply real_eqb_ints. Qed.

Lemma sql_eq_sym (a b : sqlval) : sql_eq a b = sql_eq b a.
Proof.
  destruct a, b; cbn -[real_eqb]; try reflexivity;
    try apply real_eqb_sym. apply String.eqb_sym.
Qed.

Lemma sql_eq_trans (a b c : sqlval) :
  sql_eq a b = true -> sql_eq b c = true -> sql_eq a c = true.
Proof.
  destruct a, b, c; cbn -[real_eqb]; try discriminate;
    try apply real_eqb_trans.
  intros ->%String.eqb_eq. tauto.
Qed.

Lemma sql_eq_refl_null (v : sqlval) : sql_eq v v = false -> v = SNull.
Proof.
  destruct v as [|n|r|s]; cbn -[real_eqb]; [reflexivity| | |].
  - rewrite real_eqb_refl. discriminate.
  - rewrite real_eqb_refl. discriminate.
  - rewrite String.eqb_refl. discriminate.
Qed.

Lemma numeric_affinity_int (n : Z) : numeric_affinity (SInt n) = SInt n.
Proof. reflexivity. Qed.

(** What [WHERE id = ?] selects when the parameter is the text of a route:
    the row whose id the text reads as. *)
Lemma id_column_eq_text (id : Z) (param : string) :
  int_column_eq (SInt id) (SText param) = true <-> names_id param id.
Proof.
  unfold int_column_eq, names_id, numeric_affinity.
  destruct (read_numeric param) as [[n|r]|]; cbn -[real_eqb]; try tauto.
  split; [discriminate | tauto].
Qed.

Lemma names_id_inj (param : string) (i j : Z) :
  names_id param i -> names_id param j -> i = j.
Proof.
  unfold names_id. destruct (read_numeric param) as [[n|r]|]; [| |tauto].
  - rewrite !real_eqb_ints, !Z.eqb_eq. congruence.
  - intros Hi Hj. rewrite real_eqb_sym in Hi, Hj.
    exact (real_eqb_int_inj _ _ _ Hi Hj).
Qed.

Lemma max_rowid_int64 (n : Z) : 0 <= n <= max_rowid -> int64 n = true.
Proof. unfold int64, max_rowid. lia. Qed.

(** The decimal text of an id names that id. *)
Lemma names_id_text_of_int (id : Z) :
  int64 id = true -> names_id (text_of_int id) id.
Proof.
  intros H. unfold names_id.
  rewrite (read_numeric_digits _ id (int_of_text_of_int id) H).
  apply real_eqb_refl.
Qed.

Lemma ascii_compare_N (a b : ascii) :
  Ascii.compare a b = (N_of_ascii a ?= N_of_ascii b)%N.
Proof. reflexivity. Qed.

Lemma string_compare_refl (s : string) : String.compare s s = Eq.
Proof.
  induction s as [|c s IH]; cbn; [reflexivity|].
  rewrite ascii_compare_N, N.compare_refl. exact IH.
Qed.

Lemma string_compare_trans (s1 s2 s3 : string) (c : comparison) :
  String.compare s1 s2 = c -> String.compare s2 s3 = c ->
  String.compare s1 s3 = c.
Proof.
  revert s2 s3 c.
  induction s1 as [|a1 s1 IH]; intros [|a2 s2] [|a3 s3] c; cbn;
    try congruence.
  rewrite !ascii_compare_N.
  destruct (N.compare_spec (N_of_ascii a1) (N_of_ascii a2));
    destruct (N.compare_spec (N_of_ascii a2) (N_of_ascii a3));
    destruct (N.compare_spec (N_of_ascii a1) (N_of_ascii a3));
    intros H12 H23;
    first [congruence | lia | eapply IH; eassumption].
Qed.

Lemma string_leb_refl (s : string) : String.leb s s = true.
Proof. unfold String.leb. rewrite string_compare_refl. reflexivity. Qed.

Lemma string_leb_trans (s1 s2 s3 : string) :
  String.leb s1 s2 = true -> String.leb s2 s3 = true ->
  String.leb s1 s3 = true.
Proof.
  unfold String.leb.
  destruct (String.compare s1 s2) eqn:E12; [| |discriminate];
    destruct (String.compare s2 s3) eqn:E23; try discriminate; intros _ _.
  - rewrite (string_compare_trans s1 s2 s3 Eq); auto.
  - apply String.compare_eq_iff in E12. subst. rewrite E23. reflexivity.
  - apply String.compare_eq_iff in E23. subst. rewrite E12. reflexivity.
  - rewrite (string_compare_trans s1 s2 s3 Lt); auto.
Qed.

Lemma sql_leb_refl (a : sqlval) : sql_leb a a = true.
Proof.
  destruct a; cbn -[real_leb]; try reflexivity; try apply real_leb_refl.
  apply string_leb_refl.
Qed.

Lemma sql_leb_total (a b : sqlval) : sql_leb a b = true \/ sql_leb b a = true.
Proof.
  destruct a, b; cbn -[real_leb]; auto; try apply real_leb_total.
  apply String.leb_total.
Qed.

Lemma sql_leb_trans (a b c : sqlval) :
  sql_leb a b = true -> sql_leb b c = true -> sql_leb a c = true.
Proof.
  destruct a, b, c; cbn -[real_leb]; try congruence;
    try apply real_leb_trans.
  apply string_leb_trans.
Qed.

Lemma sql_leb_int (x y : Z) : sql_leb (SInt x) (SInt y) = true <-> x <= y.
Proof.
  change (sql_leb (SInt x) (SInt y))
    with (real_leb (real_of_int x) (real_of_int y)).
  rewrite real_leb_ints. apply Z.leb_le.
Qed.

Lemma sql_ltb_leb (a b : sqlval) : sql_ltb a b = true -> sql_leb a b = true.
Proof.
  unfold sql_ltb. intros H.
  destruct (sql_leb_total a b) as [Hab|Hba]; [exact Hab|].
  rewrite Hba in H. discriminate.
Qed.

(** ** ORDER BY *)

Section OrderBy.
Context {A : Type} (leb : A -> A -> bool).
Hypothesis leb_total : forall a b, leb a b = true \/ leb b a = true.
Hypothesis leb_trans :
  forall a b c, leb a b = true -> leb b c = true -> leb a c = true.

Let R (a b : A) : Prop := leb a b = true.

Lemma insert_row_perm (x : A) (l : list A) : insert_row leb x l ≡ₚ x :: l.
Proof.
  induction l as [|y l IH]; cbn; [reflexivity|].
  destruct (leb x y); [reflexivity|].
  rewrite IH. apply Permutation_swap.
Qed.

Lemma order_by_perm (l : list A) : order_by leb l ≡ₚ l.
Proof.
  induction l as [|x l IH]; cbn; [reflexivity|].
  rewrite insert_row_perm. fold (order_by leb l). rewrite IH. reflexivity.
Qed.

Lemma insert_row_sorted (x : A) (l : list A) :
  StronglySorted R l -> StronglySorted R (insert_row leb x l).
Proof.
  induction 1 as [|y l Hl IH Hy]; cbn.
  - repeat constructor.
  - destruct (leb x y) eqn:Hxy.
    + constructor; [constructor; assumption|].
      constructor; [exact Hxy|].
      eapply Forall_impl; [exact Hy|].
      intros z Hz. exact (leb_trans x y z Hxy Hz).
    + constructor; [exact IH|].
      rewrite insert_row_perm. constructor; [|exact Hy].
      destruct (leb_total x y) as [H|H]; [congruence | exact H].
Qed.

Lemma order_by_sorted (l : list A) : StronglySorted R (order_by leb l).
Proof.
  induction l as [|x l IH]; cbn; [constructor|].
  apply insert_row_sorted. exact IH.
Qed.

Lemma sorted_lookup (l : list A) :
  StronglySorted R l ->
  forall (i j : nat) (a b : A),
    (i < j)%nat -> l !! i = Some a -> l !! j = Some b -> leb a b = true.
Proof.
  induction 1 as [|x l Hl IH Hx]; intros i j a b Hij Ha Hb.
  - discriminate.
  - destruct j as [|j]; [lia|]. cbn in Hb.
    destruct i as [|i]; cbn in Ha.
    + injection Ha as <-.
      rewrite Forall_forall in Hx. apply Hx.
      eapply list_elem_of_lookup_2. exact Hb.
    + apply (IH i j); [lia | assumption | assumption].
Qed.

Lemma order_by_lookup (l : list A) (i j : nat) (a b : A) :
  (i < j)%nat -> order_by leb l !! i = Some a ->
  order_by leb l !! j = Some b -> leb a b = true.
Proof. apply sorted_lookup, order_by_sorted. Qed.

End OrderBy.

Lemma joined_leb_total (a b : Joined.t) :
  joined_leb a b = true \/ joined_leb b a = true.
Proof.
  unfold joined_leb, sql_ltb.
  destruct (sql_leb_total (Joined.level_number a) (Joined.level_number b))
    as [H|H];
    destruct (sql_leb_total (Video.title (Joined.video a))
                (Video.title (Joined.video b))) as [T|T];
    rewrite ?H, ?T; cbn;
    destruct (sql_leb (Joined.level_number a) (Joined.level_number b));
    destruct (sql_leb (Joined.level_number b) (Joined.level_number a));
    cbn; auto; discriminate.
Qed.

Lemma joined_leb_spec (a b : Joined.t) :
  joined_leb a b = true ->
  sql_leb (Joined.level_number a) (Joined.level_number b) = true /\
  (Joined.level_number a = Joined.level_number b ->
   sql_leb (Video.title (Joined.video a)) (Video.title (Joined.video b))
   = true).
Proof.
  unfold joined_leb. intros [H|H]%orb_true_iff.
  - split; [apply sql_ltb_leb, H|].
    intros E. unfold sql_ltb in H. rewrite E, sql_leb_refl in H.
    discriminate.
  - apply andb_true_iff in H. tauto.
Qed.

Lemma joined_leb_trans (a b c : Joined.t) :
  joined_leb a b = true -> joined_leb b c = true -> joined_leb a c = true.
Proof.
  unfold joined_leb, sql_ltb.
  set (na := Joined.level_number a). set (nb := Joined.level_number b).
  set (nc := Joined.level_number c).
  intros Hab Hbc.
  pose proof (sql_leb_trans na nb nc) as T1.
  pose proof (sql_leb_trans nb nc na) as T2.
  pose proof (sql_leb_trans nc na nb) as T3.
  pose proof (sql_leb_trans (Video.title (Joined.video a))
                (Video.title (Joined.video b))
                (Video.title (Joined.video c))) as T4.
  pose proof (sql_leb_total na nb). pose proof (sql_leb_total nb nc).
  destruct (sql_leb na nb), (sql_leb nb na), (sql_leb nb nc),
    (sql_leb nc nb), (sql_leb na nc), (sql_leb nc na);
    cbn in *; try (exfalso; intuition congruence); auto;
    destruct (sql_leb (Video.title (Joined.video a))
                (Video.title (Joined.video b)));
    destruct (sql_leb (Video.title (Joined.video b))
                (Video.title (Joined.video c)));
    cbn in *; try discriminate; auto; intuition congruence.
Qed.

(** ** Selecting and deleting rows *)

Lemma filter_out_then_in {A : Type} (p : A -> bool) (l : list A) :
  filter (fun x => p x) (filter (fun x => negb (p x)) l) = [].
Proof.
  induction l as [|x l IH]; [reflexivity|].
  rewrite (filter_cons (fun x => negb (p x))).
  destruct (p x) eqn:Hp; cbn.
  - rewrite decide_False by tauto. exact IH.
  - rewrite decide_True by tauto.
    rewrite filter_cons, Hp. cbn. rewrite decide_False by tauto. exact IH.
Qed.

Lemma filter_none {A : Type} (p : A -> bool) (l : list A) :
  (forall x, x ∈ l -> p x = false) -> filter (fun x => p x) l = [].
Proof.
  induction l as [|x l IH]; intros H; [reflexivity|].
  rewrite filter_cons, (H x) by left. cbn.
  rewrite decide_False by tauto.
  apply IH. intros y Hy. apply H. right. exact Hy.
Qed.

Lemma filter_all {A : Type} (p : A -> bool) (l : list A) :
  (forall x, x ∈ l -> p x = true) -> filter (fun x => p x) l = l.
Proof.
  induction l as [|x l IH]; intros H; [reflexivity|].
  rewrite filter_cons, (H x) by left. cbn.
  rewrite decide_True by tauto. f_equal.
  apply IH. intros y Hy. apply H. right. exact Hy.
Qed.

Lemma elem_of_filter_bool {A : Type} (p : A -> bool) (l : list A) (x : A) :
  x ∈ filter (fun y => p y) l <-> x ∈ l /\ p x = true.
Proof.
  rewrite list_elem_of_filter, Is_true_true. tauto.
Qed.

Lemma existsb_none {A : Type} (p : A -> bool) (l : list A) :
  (forall x, x ∈ l -> p x = false) -> existsb p l = false.
Proof.
  induction l as [|x l IH]; intros H; [reflexivity|].
  cbn. rewrite (H x) by left. cbn.
  apply IH. intros y Hy. apply H. right. exact Hy.
Qed.

Lemma level_has_id_text (param : string) (r : Level.t) :
  level_has_id (SText param) r = true <-> names_id param (Level.id r).
Proof. apply id_column_eq_text. Qed.

Lemma video_has_id_text (param : string) (r : Video.t) :
  video_has_id (SText param) r = true <-> names_id param (Video.id r).
Proof. apply id_column_eq_text. Qed.

Lemma no_level_named_spec (db : database) (id : string) :
  no_level_named db id ->
  forall r, r ∈ levels db -> level_has_id (SText id) r = false.
Proof.
  unfold no_level_named. rewrite Forall_forall. intros H r Hr.
  apply not_true_is_false. rewrite level_has_id_text. apply H, Hr.
Qed.

Lemma no_video_named_spec (db : database) (id : string) :
  no_video_named db id ->
  forall r, r ∈ videos db -> video_has_id (SText id) r = false.
Proof.
  unfold no_video_named. rewrite Forall_forall. intros H r Hr.
  apply not_true_is_false. rewrite video_has_id_text. apply H, Hr.
Qed.

(** ** Rejected uploads *)

(** C2: an upload whose body has no [videoData] field is answered 400 with
    an error body, and the database is left as it was. *)
Theorem upload_without_video_data (db : database) (body : jsobject)
    (now : string) :
  body !! "videoData" = None ->
  post_api_videos db body now =
    (db, mkres 400 (JsonError "No video data provided")).
Proof.
  intros H. unfold post_api_videos, field. rewrite H. reflexivity.
Qed.

(** C10: the values of [videoData] that count as missing are exactly
    [undefined], [null], [false], [0] and the empty string; an upload with
    any of them, the empty string included, is answered 400 and inserts
    nothing. *)
Theorem upload_with_falsy_video_data (db : database) (body : jsobject)
    (now : string) :
  truthy (field body "videoData") = false ->
  field body "videoData" ∈
    [JUndefined; JNull; JBool false; JNum 0; JStr ""] /\
  post_api_videos db body now =
    (db, mkres 400 (JsonError "No video data provided")).
Proof.
  intros H. split.
  - destruct (field body "videoData") as [| |[]|n|r|s|s|]; cbn in H;
      try discriminate; set_unfold; auto.
    + apply negb_false_iff, Z.eqb_eq in H. subst. auto.
    + apply negb_false_iff, String.eqb_eq in H. subst. auto 10.
  - unfold post_api_videos. rewrite H. reflexivity.
Qed.

(** ** Inserting rows *)

Lemma largest_rowid_ge (ids : list Z) (x : Z) :
  x ∈ ids -> x <= largest_rowid ids.
Proof.
  induction ids as [|y ids IH]; intros Hx.
  - inversion Hx.
  - change (largest_rowid (y :: ids)) with (Z.max y (largest_rowid ids)).
    apply elem_of_cons in Hx as [->|Hx]; [lia|].
    specialize (IH Hx). lia.
Qed.

Lemma largest_rowid_nonneg (ids : list Z) : 0 <= largest_rowid ids.
Proof.
  induction ids as [|x ids IH]; [reflexivity|].
  change (largest_rowid (x :: ids)) with (Z.max x (largest_rowid ids)). lia.
Qed.

Lemma new_rowid_ok (seq : Z) (ids : list Z) (id : Z) :
  new_rowid seq ids = Ok id <->
  Z.max seq (largest_rowid ids) < max_rowid /\
  id = Z.max seq (largest_rowid ids) + 1.
Proof.
  unfold new_rowid.
  destruct (Z.leb_spec max_rowid (Z.max seq (largest_rowid ids))).
  - split; [discriminate | lia].
  - split; [intros [= <-]; lia | intros [_ ->]; reflexivity].
Qed.

Lemma new_rowid_fresh (seq : Z) (ids : list Z) (id : Z) :
  new_rowid seq ids = Ok id -> forall x, x ∈ ids -> x < id.
Proof.
  intros [_ ->]%new_rowid_ok x Hx%largest_rowid_ge. lia.
Qed.

(** A new rowid is an integer of 64 bits. *)
Lemma new_rowid_int64 (seq : Z) (ids : list Z) (id : Z) :
  new_rowid seq ids = Ok id -> int64 id = true.
Proof.
  intros [H ->]%new_rowid_ok. pose proof (largest_rowid_nonneg ids).
  apply max_rowid_int64. lia.
Qed.

Lemma insert_level_ok (db db' : database)
    (number title description icon status points : sqlval) (now : string)
    (id : Z) :
  insert_level db number title description icon status points now
    = Ok (id, db') <->
  new_rowid (levels_seq db) (Level.id <$> levels db) = Ok id /\
  is_null (affinity_text title) = false /\
  existsb (fun r => sql_eq (Level.number r) (affinity_integer number))
    (levels db) = false /\
  db' = mkdb (levels db ++
                [Level.mk id (affinity_integer number) (affinity_text title)
                   (affinity_text description) (affinity_text icon)
                   (affinity_text status) (affinity_integer points) now])
          id (videos_table db).
Proof.
  unfold insert_level.
  destruct (new_rowid (levels_seq db) (Level.id <$> levels db)) as [k|e];
    cbn [Level.title Level.number].
  - destruct (is_null (affinity_text title)).
    { split; [discriminate | intros (_ & ? & _); discriminate]. }
    destruct (existsb _ (levels db)).
    { split; [discriminate | intros (_ & _ & ? & _); discriminate]. }
    split.
    + intros [= -> <-]. auto.
    + intros ([= ->] & _ & _ & ->). reflexivity.
  - split; [discriminate | intros ([=] & _)].
Qed.

Lemma post_api_levels_ok (db db' : database) (body : jsobject)
    (now : string) (res : response) :
  post_api_levels db body now = (db', res) -> res_status res = 200 ->
  exists id,
    res = mkres 200 (JsonCreated id "Level created successfully") /\
    insert_level db (bind_param (field body "number"))
      (bind_param (field body "title"))
      (bind_param (field body "description"))
      (bind_param (field body "icon")) (bind_param (field body "status"))
      (bind_param (field body "points")) now = Ok (id, db').
Proof.
  unfold post_api_levels.
  destruct (insert_level _ _ _ _ _ _ _ _) as [[id db1]|e].
  - intros [= <- <-] _. exists id. split; reflexivity.
  - intros [= <- <-]. discriminate.
Qed.

(** ** Listing levels *)

Lemma select_levels_perm (db : database) : select_levels db ≡ₚ levels db.
Proof. apply order_by_perm. Qed.

Lemma select_levels_ascending (db : database) :
  ascending Level.number (select_levels db).
Proof.
  intros i j a b Hij Ha Hb.
  apply (order_by_lookup
           (fun a b => sql_leb (Level.number a) (Level.number b)))
    with (l := levels db) (i := i) (j := j); try assumption.
  - intros x y. apply sql_leb_total.
  - intros x y z. apply sql_leb_trans.
Qed.

(** Rows ascending in a key have their integer keys in the order of the
    integers. *)
Lemma ascending_int {A : Type} (key : A -> sqlval) (rows : list A)
    (i j : nat) (a b : A) (x y : Z) :
  ascending key rows -> (i < j)%nat ->
  rows !! i = Some a -> rows !! j = Some b ->
  key a = SInt x -> key b = SInt y -> x <= y.
Proof.
  intros Hasc Hij Ha Hb Hx Hy.
  apply sql_leb_int. rewrite <- Hx, <- Hy. exact (Hasc i j a b Hij Ha Hb).
Qed.

(** C5: the listing of levels answers 200 with exactly the stored levels,
    ascending in [number]; and when creating a level succeeds, the row it
    made, under the id it returned and with the fields of the body, is in
    the listing of the resulting database. *)
Theorem levels_listed_by_number (db : database) :
  get_api_levels db = mkres 200 (JsonLevels (select_levels db)) /\
  select_levels db ≡ₚ levels db /\
  ascending Level.number (select_levels db) /\
  forall (body : jsobject) (now : string) (db' : database) (res : response),
    post_api_levels db body now = (db', res) -> res_status res = 200 ->
    exists id row,
      res_body res = JsonCreated id "Level created successfully" /\
      get_api_levels db' = mkres 200 (JsonLevels (select_levels db')) /\
      row ∈ select_levels db' /\
      Level.id row = id /\
      Level.number row = affinity_integer (bind_param (field body "number")) /\
      Level.title row = affinity_text (bind_param (field body "title")) /\
      Level.description row =
        affinity_text (bind_param (field body "description")) /\
      Level.icon row = affinity_text (bind_param (field body "icon")) /\
      Level.status row = affinity_text (bind_param (field body "status")) /\
      Level.points row = affinity_integer (bind_param (field body "points")) /\
      Level.created_at row = now.
Proof.
  split; [reflexivity|]. split; [apply select_levels_perm|].
  split; [apply select_levels_ascending|].
  intros body now db' res Hpost Hok.
  destruct (post_api_levels_ok _ _ _ _ _ Hpost Hok) as (id & -> & Hins).
  apply insert_level_ok in Hins as (_ & _ & _ & ->).
  eexists id, _. split; [reflexivity|]. split; [reflexivity|].
  split.
  - rewrite select_levels_perm. cbn [levels].
    apply elem_of_app. right. apply list_elem_of_singleton. reflexivity.
  - cbn. repeat split; reflexivity.
Qed.

(** ** The videos table *)

Lemma insert_video_ok (db db' : database)
    (level_id title description filename file_size mime_type video_data
       : sqlval) (now : string) (id : Z) :
  insert_video db level_id title description filename file_size mime_type
    video_data now = Ok (id, db') <->
  has_videos_table db /\
  new_rowid (videos_seq db) (Video.id <$> videos db) = Ok id /\
  is_null (affinity_text title) = false /\
  db' = mkdb (levels db) (levels_seq db)
          (Some (mkvt
                   (videos db ++
                      [Video.mk id (affinity_integer level_id)
                         (affinity_text title) (affinity_text description)
                         (affinity_text filename)
                         (affinity_integer file_size)
                         (affinity_text mime_type)
                         (affinity_text video_data) now])
                   id)).
Proof.
  unfold insert_video, has_videos_table, videos, videos_seq.
  destruct (videos_table db) as [t|].
  - destruct (new_rowid (vt_seq t) (Video.id <$> vt_rows t)) as [k|e];
      cbn [Video.title].
    + destruct (is_null (affinity_text title)).
      { split; [discriminate | intros (_ & _ & ? & _); discriminate]. }
      split.
      * intros [= -> <-]. auto.
      * intros (_ & [= ->] & _ & ->). reflexivity.
    + split; [discriminate | intros (_ & [=] & _)].
  - split; [discriminate | intros (H & _); contradiction].
Qed.

Lemma post_api_videos_cases (db : database) (body : jsobject) (now : string) :
  (exists id,
     post_api_videos db body now =
       (mkdb (levels db) (levels_seq db)
          (Some (mkvt (videos db ++ [created_video id body now]) id)),
        mkres 200 (JsonCreated id "Video uploaded successfully")) /\
     has_videos_table db /\
     truthy (field body "videoData") = true /\
     new_rowid (videos_seq db) (Video.id <$> videos db) = Ok id /\
     is_null (affinity_text (bind_param (field body "title"))) = false) \/
  (post_api_videos db body now =
     (db, mkres 400 (JsonError "No video data provided")) /\
   truthy (field body "videoData") = false) \/
  (exists e,
     post_api_videos db body now =
       (db, mkres 500 (JsonError (message e))) /\
     truthy (field body "videoData") = true /\
     insert_video db (bind_param (field body "level_id"))
       (bind_param (field body "title"))
       (bind_param (field body "description"))
       (bind_param (field body "filename"))
       (bind_param (field body "fileSize"))
       (bind_param (field body "mimeType"))
       (bind_param (field body "videoData")) now = Err e).
Proof.
  unfold post_api_videos.
  destruct (truthy (field body "videoData")); cbn [negb]; [|auto].
  destruct (insert_video _ _ _ _ _ _ _ _ _) as [[id db']|e] eqn:E.
  - left. exists id. apply insert_video_ok in E as (Ht & Hid & Htitle & ->).
    repeat split; assumption.
  - right. right. exists e. repeat split.
Qed.

Lemma post_api_videos_ok (db db' : database) (body : jsobject)
    (now : string) (res : response) :
  post_api_videos db body now = (db', res) -> res_status res = 200 ->
  exists id,
    res = mkres 200 (JsonCreated id "Video uploaded successfully") /\
    db' = mkdb (levels db) (levels_seq db)
            (Some (mkvt (videos db ++ [created_video id body now]) id)) /\
    has_videos_table db /\
    truthy (field body "videoData") = true /\
    new_rowid (videos_seq db) (Video.id <$> videos db) = Ok id /\
    is_null (affinity_text (bind_param (field body "title"))) = false.
Proof.
  intros Hpost Hok.
  destruct (post_api_videos_cases db body now)
    as [(id & E & H)|[(E & _)|(e & E & _)]];
    rewrite E in Hpost; injection Hpost as <- <-; try discriminate.
  exists id. repeat split; apply H.
Qed.

(** *** A database without the table *)

(** On a database without a [videos] table every statement on [videos]
    fails, and every handler that runs one answers 500 and changes
    nothing. *)
Lemma videos_routes_without_table (db : database) :
  videos_table db = None ->
  get_api_videos db = no_videos_table /\
  (forall levelId, get_api_videos_level db levelId = no_videos_table) /\
  (forall id, get_api_videos_id db id = no_videos_table) /\
  (forall id, delete_api_videos_id db id = (db, no_videos_table)) /\
  (forall id, delete_api_levels_id db id = (db, no_videos_table)) /\
  (forall body now,
     truthy (field body "videoData") = true ->
     post_api_videos db body now = (db, no_videos_table)).
Proof.
  intros H.
  unfold get_api_videos, get_api_videos_level, get_api_videos_id,
    delete_api_videos_id, delete_api_levels_id, post_api_videos,
    select_videos_joined, select_videos_of_level, select_video, delete_video,
    delete_videos_of_level, insert_video.
  rewrite H. repeat split. intros body now ->. reflexivity.
Qed.

Lemma one_level_eq (now : string) :
  one_level now = mkdb [dance_forms_row now] 1 None.
Proof. vm_compute. reflexivity. Qed.

Lemma read_numeric_1 : read_numeric "1" = Some (NInt 1).
Proof. apply read_numeric_digits; reflexivity. Qed.

(** ** The server as it starts *)

(** C1, as the code runs it: on the database of a started server that holds
    one level, deleting that level fails at [DELETE FROM videos], the table
    not being there; the answer is 500, the level is still stored and
    fetched, and the listing of its videos answers 500 as well, not an
    empty list. *)
Theorem delete_level_stops_at_videos (now : string) :
  delete_api_levels_id (one_level now) "1" =
    (one_level now,
     mkres 500 (JsonError "SQLITE_ERROR: no such table: videos")) /\
  get_api_levels_id (delete_api_levels_id (one_level now) "1").1 "1" =
    mkres 200 (JsonLevel (Some (dance_forms_row now))) /\
  get_api_videos_level (delete_api_levels_id (one_level now) "1").1 "1" =
    mkres 500 (JsonError "SQLITE_ERROR: no such table: videos").
Proof.
  rewrite one_level_eq.
  assert (delete_api_levels_id (mkdb [dance_forms_row now] 1 None) "1" =
            (mkdb [dance_forms_row now] 1 None,
             mkres 500 (JsonError "SQLITE_ERROR: no such table: videos")))
    as E by reflexivity.
  rewrite E. cbn [fst]. split; [reflexivity|]. split; [|reflexivity].
  unfold get_api_levels_id, select_level. cbn [bind_param levels].
  rewrite filter_cons, decide_True; [reflexivity|].
  apply Is_true_true, level_has_id_text. unfold names_id.
  rewrite read_numeric_1. reflexivity.
Qed.

(** C3, as the code runs it: on the database of a started server, fetching
    a video answers 500 whatever the id, the table not being there, and
    never 404; fetching a level by an id that no level has answers 200
    with no row. *)
Theorem absent_video_500_absent_level_200 (id : string) :
  get_api_videos_id started id =
    mkres 500 (JsonError "SQLITE_ERROR: no such table: videos") /\
  get_api_levels_id started id = mkres 200 (JsonLevel None).
Proof. split; reflexivity. Qed.

(** C4, as the code runs it: on the database of a started server, replacing
    a level that is not stored changes nothing and answers 200 with the
    success message; deleting a video changes nothing either, but answers
    500, the table not being there. *)
Theorem put_absent_200_delete_video_500 (id : string) (body : jsobject) :
  put_api_levels_id started id body =
    (started, mkres 200 (JsonMessage "Level updated successfully")) /\
  delete_api_videos_id started id =
    (started,
     mkres 500 (JsonError "SQLITE_ERROR: no such table: videos")).
Proof. split; reflexivity. Qed.

(** C7, as the code runs it: on the database of a started server, with or
    without a level, the listing of the videos answers 500, the table not
    being there, and no list at all. *)
Theorem videos_listing_fails (now : string) :
  get_api_videos started =
    mkres 500 (JsonError "SQLITE_ERROR: no such table: videos") /\
  get_api_videos (one_level now) =
    mkres 500 (JsonError "SQLITE_ERROR: no such table: videos").
Proof. split; [reflexivity|]. rewrite one_level_eq. reflexivity. Qed.

(** ** Uploading and fetching a video *)

(** C6, amended: on a file that has a [videos] table, when an upload whose
    [videoData] is a well-formed string [P] is answered 200, fetching the
    video under the returned id answers 200 with the row of that id, and
    the [video_data] it sends is the string [P]. *)
Theorem upload_then_fetch_returns_payload (db db' : database)
    (body : jsobject) (now : string) (P : string) (res : response) :
  field body "videoData" = JStr P ->
  post_api_videos db body now = (db', res) -> res_status res = 200 ->
  exists id row,
    res_body res = JsonCreated id "Video uploaded successfully" /\
    get_api_videos_id db' (text_of_int id) = mkres 200 (JsonVideo row) /\
    Video.id row = id /\
    json_of (Video.video_data row) = JStr P.
Proof.
  intros HP Hpost Hok.
  destruct (post_api_videos_ok _ _ _ _ _ Hpost Hok)
    as (id & -> & -> & _ & _ & Hid & _).
  exists id, (created_video id body now). split; [reflexivity|].
  assert (names_id (text_of_int id) id) as Hname.
  { apply names_id_text_of_int, (new_rowid_int64 _ _ _ Hid). }
  split; [|split; [reflexivity|]].
  - unfold get_api_videos_id, select_video.
    cbn [videos_table bind_param vt_rows].
    rewrite filter_app.
    rewrite (filter_none (video_has_id (SText (text_of_int id)))).
    + rewrite filter_cons, decide_True; [reflexivity|].
      apply Is_true_true, video_has_id_text. exact Hname.
    + intros r Hr. apply not_true_is_false.
      rewrite video_has_id_text. intros Hr'.
      pose proof (names_id_inj _ _ _ Hr' Hname) as E.
      assert (Video.id r < id); [|lia].
      apply (new_rowid_fresh _ _ _ Hid).
      apply list_elem_of_fmap. exists r. auto.
  - cbn [created_video Video.video_data]. rewrite HP. reflexivity.
Qed.

(** ** What INTEGER affinity stores *)

Lemma real_eqb_Qeq (p q : Q) :
  real_eqb (Finite p) (Finite q) = true <-> (p == q)%Q.
Proof.
  unfold real_eqb. cbn. rewrite andb_true_iff, !Qle_bool_iff. split.
  - intros [H1 H2]. apply Qle_antisym; assumption.
  - intros H. rewrite H. split; apply Qle_refl.
Qed.

Lemma real_int_spec (r : real) (n : Z) :
  real_int r = Some n -> real_eqb r (real_of_int n) = true.
Proof.
  destruct r as [q|b]; [|discriminate]. cbn -[real_eqb].
  destruct (Qeq_bool q (inject_Z (Qfloor q))) eqn:E; [|discriminate].
  destruct (_ <? _); [|discriminate].
  destruct (_ <? _); [|discriminate].
  intros [= <-]. apply real_eqb_Qeq, Qeq_bool_iff, E.
Qed.

Lemma real_int_of_int (n : Z) :
  -9223372036854775808 < n < 9223372036854775807 ->
  real_int (real_of_int n) = Some n.
Proof.
  intros [H1 H2]. unfold real_int, real_of_int. rewrite Qfloor_Z.
  rewrite (proj2 (Qeq_bool_iff _ _) (Qeq_refl _)).
  rewrite (proj2 (Z.ltb_lt _ _) H1), (proj2 (Z.ltb_lt _ _) H2). reflexivity.
Qed.

(** The integer a REAL is stored as has the value of the REAL. *)
Lemma integer_of_real_value (r : real) (v : sqlval) :
  sql_eq v (integer_of_real r) = sql_eq v (SReal r).
Proof.
  unfold integer_of_real. destruct (real_int r) as [n|] eqn:E; [|reflexivity].
  apply real_int_spec in E.
  destruct v as [|m|x|s]; cbn -[real_eqb]; try reflexivity.
  - destruct (real_eqb (real_of_int m) r) eqn:F.
    + apply (real_eqb_trans _ _ _ F E).
    + apply not_true_is_false. intros G. rewrite real_eqb_sym in E.
      rewrite (real_eqb_trans _ _ _ G E) in F. discriminate.
  - destruct (real_eqb x r) eqn:F.
    + apply (real_eqb_trans _ _ _ F E).
    + apply not_true_is_false. intros G. rewrite real_eqb_sym in E.
      rewrite (real_eqb_trans _ _ _ G E) in F. discriminate.
Qed.

(** A value with INTEGER affinity has the value numeric affinity gives. *)
Lemma sql_eq_affinity_integer (v p : sqlval) :
  sql_eq v (affinity_integer p) = sql_eq v (numeric_affinity p).
Proof.
  unfold affinity_integer.
  destruct (numeric_affinity p); try reflexivity. apply integer_of_real_value.
Qed.

Lemma integer_of_real_stored (r : real) :
  affinity_integer (integer_of_real r) = integer_of_real r.
Proof.
  unfold integer_of_real. destruct (real_int r) eqn:E; [reflexivity|].
  unfold affinity_integer, numeric_affinity, integer_of_real. rewrite E.
  reflexivity.
Qed.

(** INTEGER affinity changes nothing in a value it has made. *)
Lemma affinity_integer_stored (p : sqlval) :
  stored_integer (affinity_integer p).
Proof.
  unfold stored_integer.
  destruct p as [|n|r|s]; try reflexivity.
  - apply integer_of_real_stored.
  - assert (affinity_integer (SText s) =
              match read_numeric s with
              | Some (NInt n) => SInt n
              | Some (NReal r) => integer_of_real r
              | None => SText s
              end) as ->.
    { unfold affinity_integer, numeric_affinity.
      destruct (read_numeric s) as [[n|r]|]; reflexivity. }
    destruct (read_numeric s) as [[n|r]|] eqn:E; [reflexivity| |].
    + apply integer_of_real_stored.
    + unfold affinity_integer, numeric_affinity. rewrite E. reflexivity.
Qed.

(** A value the column holds is left alone by numeric affinity too. *)
Lemma stored_integer_numeric (v : sqlval) :
  stored_integer v -> numeric_affinity v = v.
Proof.
  unfold stored_integer, affinity_integer.
  destruct v as [|n|r|s]; try reflexivity.
  unfold numeric_affinity.
  destruct (read_numeric s) as [[n|r]|]; [discriminate| |reflexivity].
  unfold integer_of_real. destruct (real_int r); discriminate.
Qed.

(** On a value the column holds, [WHERE col = ?] and the UNIQUE index
    agree. *)
Lemma int_column_eq_stored (v p : sqlval) :
  stored_integer v -> int_column_eq v p = sql_eq v (affinity_integer p).
Proof.
  intros H. unfold int_column_eq.
  rewrite (stored_integer_numeric v H), sql_eq_affinity_integer. reflexivity.
Qed.

(** A value the UNIQUE index takes for the new one is a value the lookup
    finds. *)
Lemma unique_hit_lookup (v p : sqlval) :
  sql_eq v (affinity_integer p) = true -> int_column_eq v p = true.
Proof.
  rewrite sql_eq_affinity_integer. unfold int_column_eq.
  destruct v as [|n|r|s]; try (intros H; exact H).
  destruct (numeric_affinity p) as [|m|x|t] eqn:E; try discriminate.
  cbn [sql_eq]. intros ->%String.eqb_eq.
  assert (read_numeric t = None) as Ht.
  { destruct p as [|m|x|u]; try discriminate. cbn in E.
    destruct (read_numeric u) as [[m|x]|] eqn:F; try discriminate.
    injection E as ->. exact F. }
  cbn. rewrite Ht. cbn. apply String.eqb_refl.
Qed.

(** A value that is not NULL is found under the parameter it was stored
    from. *)
Lemma int_column_eq_affinity (p : sqlval) :
  is_null (affinity_integer p) = false ->
  int_column_eq (affinity_integer p) p = true.
Proof.
  intros H. rewrite int_column_eq_stored by apply affinity_integer_stored.
  destruct (affinity_integer p) as [|n|r|s]; cbn -[real_eqb];
    [discriminate|apply real_eqb_refl|apply real_eqb_refl|
     apply String.eqb_refl].
Qed.

(** ** Seeding *)

Lemma first_row_select_level_ids (db : database) (number : sqlval) :
  first_row (select_level_ids_by_number db number) = None <->
  existsb (level_has_number number) (levels db) = false.
Proof.
  unfold first_row, select_level_ids_by_number.
  induction (levels db) as [|r l IH]; [cbn; tauto|].
  rewrite filter_cons. cbn [existsb].
  destruct (level_has_number number r); cbn.
  - rewrite decide_True by exact I. cbn. split; discriminate.
  - rewrite decide_False by tauto. exact IH.
Qed.

(** When the lookup finds no row the UNIQUE index finds none either. *)
Lemma lookup_none_unique (ls : list Level.t) (number : sqlval) :
  existsb (level_has_number number) ls = false ->
  existsb (fun r => sql_eq (Level.number r) (affinity_integer number)) ls
    = false.
Proof.
  intros H. apply existsb_none. intros r Hr. apply not_true_is_false.
  intros E%unique_hit_lookup.
  rewrite <- not_true_iff_false in H. apply H, existsb_exists.
  exists r. split; [apply list_elem_of_In, Hr | exact E].
Qed.

Lemma insertSampleLevel_settled (now : string) (db : database)
    (level : jsobject) :
  settled db level = true -> insertSampleLevel now db level = db.
Proof.
  unfold settled, insertSampleLevel, insert_level.
  destruct (first_row _) eqn:Hfirst; [reflexivity|].
  apply first_row_select_level_ids in Hfirst.
  destruct (new_rowid _ _); [|reflexivity].
  cbn [Level.title Level.number]. rewrite Hfirst, orb_false_r.
  intros ->. reflexivity.
Qed.

Lemma insertSampleLevel_unsettled (now : string) (db : database)
    (level : jsobject) :
  settled db level = false ->
  exists id,
    new_rowid (levels_seq db) (Level.id <$> levels db) = Ok id /\
    insertSampleLevel now db level =
      mkdb (levels db ++ [sample_row id level now]) id (videos_table db).
Proof.
  unfold settled, insertSampleLevel, insert_level.
  destruct (new_rowid _ _) as [id|]; [|discriminate].
  intros [Htitle Hnum]%orb_false_iff. exists id. split; [reflexivity|].
  rewrite (proj2 (first_row_select_level_ids _ _) Hnum).
  cbn [Level.title Level.number]. rewrite Htitle.
  rewrite (lookup_none_unique _ _ Hnum). reflexivity.
Qed.

(** Once a level with a number is stored the step is settled for it. *)
Lemma settled_after_step (now : string) (db : database) (level : jsobject) :
  is_null (affinity_integer (bind_param (field level "number"))) = false ->
  settled (insertSampleLevel now db level) level = true.
Proof.
  intros Hnum.
  destruct (settled db level) eqn:E.
  - rewrite insertSampleLevel_settled; assumption.
  - destruct (insertSampleLevel_unsettled now db level E) as (id & _ & ->).
    unfold settled. cbn [levels levels_seq].
    destruct (new_rowid _ _); [|reflexivity].
    apply orb_true_iff. right.
    rewrite existsb_app. apply orb_true_iff. right. cbn [existsb].
    rewrite orb_false_r.
    unfold level_has_number. cbn [Level.number sample_row].
    apply int_column_eq_affinity, Hnum.
Qed.

(** A settled level stays settled, whatever other level is seeded. *)
Lemma settled_preserved (now : string) (db : database)
    (level other : jsobject) :
  settled db level = true ->
  settled (insertSampleLevel now db other) level = true.
Proof.
  intros Hs.
  destruct (settled db other) eqn:E.
  - rewrite insertSampleLevel_settled; assumption.
  - destruct (insertSampleLevel_unsettled now db other E) as (id & Hid & ->).
    clear E. unfold settled in *. cbn [levels levels_seq].
    rewrite Hid in Hs.
    destruct (new_rowid id _); [|reflexivity].
    apply orb_true_iff in Hs as [Hs|Hs]; apply orb_true_iff; [left|right].
    + exact Hs.
    + rewrite existsb_app, Hs. reflexivity.
Qed.

Lemma settled_preserved_foldl (clock : jsobject -> string)
    (samples : list jsobject)
    (db : database) (level : jsobject) :
  settled db level = true ->
  settled (foldl (fun d l => insertSampleLevel (clock l) d l) db samples)
    level = true.
Proof.
  revert db. induction samples as [|l samples IH]; intros db Hs.
  - exact Hs.
  - cbn [foldl]. apply IH, settled_preserved, Hs.
Qed.

Lemma settled_after_foldl (clock : jsobject -> string)
    (samples : list jsobject)
    (db : database) (level : jsobject) :
  level ∈ samples ->
  is_null (affinity_integer (bind_param (field level "number"))) = false ->
  settled (foldl (fun d l => insertSampleLevel (clock l) d l) db samples)
    level = true.
Proof.
  revert db. induction samples as [|l samples IH]; intros db Hin Hnum.
  - inversion Hin.
  - cbn [foldl]. apply elem_of_cons in Hin as [->|Hin].
    + apply settled_preserved_foldl, settled_after_step, Hnum.
    + apply IH; assumption.
Qed.

Lemma foldl_all_settled (clock : jsobject -> string)
    (samples : list jsobject)
    (db : database) :
  (forall level, level ∈ samples -> settled db level = true) ->
  foldl (fun d l => insertSampleLevel (clock l) d l) db samples = db.
Proof.
  induction samples as [|l samples IH]; intros Hs; [reflexivity|].
  cbn [foldl]. rewrite insertSampleLevel_settled by (apply Hs; left).
  apply IH. intros level Hl. apply Hs. right. exact Hl.
Qed.

(** What a run of the seeding adds: rows appended after the stored ones,
    each made of a sample level whose number the lookup found in no stored
    row. *)
Lemma foldl_insertSampleLevel_adds (clock : jsobject -> string)
    (samples : list jsobject)
    (db : database) :
  exists added,
    levels (foldl (fun d l => insertSampleLevel (clock l) d l) db samples)
      = levels db ++ added /\
    videos_table (foldl (fun d l => insertSampleLevel (clock l) d l) db samples)
      = videos_table db /\
    forall row, row ∈ added ->
      exists level, level ∈ samples /\
        row = sample_row (Level.id row) level (clock level) /\
        forall r, r ∈ levels db ->
          level_has_number (bind_param (field level "number")) r = false.
Proof.
  revert db. induction samples as [|l samples IH]; intros db.
  - exists []. cbn. rewrite app_nil_r. repeat split. inversion 1.
  - cbn [foldl]. destruct (IH (insertSampleLevel (clock l) db l))
      as (added & Hl & Hv & Hrows).
    destruct (settled db l) eqn:E.
    + rewrite insertSampleLevel_settled in * by exact E.
      exists added. repeat split; try assumption.
      intros row Hrow. destruct (Hrows row Hrow) as (level & ? & ? & ?).
      exists level. repeat split; [right|..]; assumption.
    + destruct (insertSampleLevel_unsettled (clock l) db l E)
        as (id & Hid & Hstep).
      rewrite Hstep in *. cbn [levels videos_table] in *.
      exists (sample_row id l (clock l) :: added).
      rewrite Hl, <- app_assoc. repeat split; try assumption.
      intros row [->|Hrow]%elem_of_cons.
      * exists l. split; [left|]. split; [reflexivity|].
        intros r Hr.
        unfold settled in E. rewrite Hid in E.
        apply orb_false_iff in E as [_ E].
        rewrite <- not_true_iff_false in E |- *. intros Heq. apply E.
        apply existsb_exists. exists r. split; [|exact Heq].
        apply list_elem_of_In, Hr.
      * destruct (Hrows row Hrow) as (level & ? & ? & Hfree).
        exists level. repeat split; [right; assumption | assumption |].
        intros r Hr. apply Hfree, elem_of_app. left. exact Hr.
Qed.

Lemma sampleLevels_by_name : sampleLevels = [festivals; folk_arts; mythology].
Proof. reflexivity. Qed.

Lemma sampleLevels_numbers (level : jsobject) :
  level ∈ sampleLevels ->
  exists n, n ∈ [1; 2; 3] /\
    bind_param (field level "number") = SInt n /\
    affinity_integer (bind_param (field level "number")) = SInt n.
Proof.
  rewrite sampleLevels_by_name. intros H.
  repeat (apply elem_of_cons in H as [->|H]); [| | |inversion H].
  - exists 1. split; [set_solver | split; vm_compute; reflexivity].
  - exists 2. split; [set_solver | split; vm_compute; reflexivity].
  - exists 3. split; [set_solver | split; vm_compute; reflexivity].
Qed.

Lemma videos_of_table (db db' : database) :
  videos_table db' = videos_table db ->
  videos db' = videos db /\ videos_seq db' = videos_seq db.
Proof. unfold videos, videos_seq. intros ->. auto. Qed.

(** C8: a run of the seeding, in whatever order and at whatever times its
    inserts come, only appends rows to [levels] and touches no stored row;
    every row it appends is made of a sample level and has a number among
    1, 2, 3 that the lookup found in no stored level, and that no stored
    level had; the videos are left alone; and a second run, at whatever
    times and in whatever order, changes nothing more. *)
Theorem insertSampleData_idempotent (order order' : list jsobject)
    (clock : jsobject -> string) (db : database) :
  order ≡ₚ sampleLevels -> order' ≡ₚ sampleLevels ->
  (exists added,
     levels (insertSampleData order clock db) = levels db ++ added /\
     forall row, row ∈ added ->
       exists level n,
         level ∈ sampleLevels /\ n ∈ [1; 2; 3] /\
         row = sample_row (Level.id row) level (clock level) /\
         Level.number row = SInt n /\
         forall r, r ∈ levels db ->
           level_has_number (SInt n) r = false /\
           Level.number r <> SInt n) /\
  videos (insertSampleData order clock db) = videos db /\
  forall clock',
    insertSampleData order' clock' (insertSampleData order clock db) =
      insertSampleData order clock db.
Proof.
  intros Horder Horder'. unfold insertSampleData.
  destruct (foldl_insertSampleLevel_adds clock order db)
    as (added & Hl & Hv & Hrows).
  split; [|split; [apply videos_of_table, Hv|]].
  - exists added. split; [exact Hl|].
    intros row Hrow. destruct (Hrows row Hrow) as (level & Hin & Hrow' & Hfree).
    rewrite Horder in Hin.
    destruct (sampleLevels_numbers level Hin) as (n & Hn & Eb & E).
    assert (Level.number row = SInt n) as Hnum.
    { rewrite Hrow'. exact E. }
    exists level, n. repeat split; try assumption.
    + rewrite <- Eb. apply Hfree, H.
    + intros Heq. specialize (Hfree r H). rewrite Eb in Hfree.
      unfold level_has_number, int_column_eq in Hfree.
      rewrite Heq, !numeric_affinity_int, sql_eq_ints, Z.eqb_refl in Hfree.
      discriminate.
  - intros clock'. apply foldl_all_settled. intros level Hin.
    rewrite Horder' in Hin.
    apply settled_after_foldl; [rewrite Horder; exact Hin|].
    destruct (sampleLevels_numbers level Hin) as (n & _ & _ & ->).
    reflexivity.
Qed.

(** *** The order of lookups and inserts *)

(** The insert of one sample level adds no row that the lookup of another
    one finds. *)
Lemma sampleLevels_independent (l l' : jsobject) (id : Z) (now : string) :
  l ∈ sampleLevels -> l' ∈ sampleLevels -> l <> l' ->
  level_has_number (bind_param (field l' "number")) (sample_row id l now)
    = false.
Proof.
  rewrite sampleLevels_by_name. intros H H' Hne.
  repeat (apply elem_of_cons in H as [->|H]); [| | |inversion H];
    repeat (apply elem_of_cons in H' as [->|H']);
    try inversion H'; try contradiction; vm_compute; reflexivity.
Qed.

Lemma insertSampleLevel_found (now : string) (db : database)
    (level : jsobject) :
  existsb (level_has_number (bind_param (field level "number"))) (levels db)
    = true ->
  insertSampleLevel now db level = db.
Proof.
  intros H. unfold insertSampleLevel.
  destruct (first_row _) eqn:E; [reflexivity|].
  apply first_row_select_level_ids in E. congruence.
Qed.

(** What one more seeded level does to the lookup of a level. *)
Lemma insertSampleLevel_lookup (now : string) (db : database)
    (l l' : jsobject) :
  l ∈ sampleLevels -> l' ∈ sampleLevels -> l <> l' ->
  existsb (level_has_number (bind_param (field l' "number")))
    (levels (insertSampleLevel now db l)) =
  existsb (level_has_number (bind_param (field l' "number"))) (levels db).
Proof.
  intros H H' Hne. destruct (settled db l) eqn:E.
  - rewrite insertSampleLevel_settled by exact E. reflexivity.
  - destruct (insertSampleLevel_unsettled now db l E) as (id & _ & ->).
    cbn [levels]. rewrite existsb_app. cbn [existsb].
    rewrite (sampleLevels_independent l l' id now H H' Hne).
    rewrite !orb_false_r. reflexivity.
Qed.

Lemma insertSampleLevel_keeps_found (now : string) (db : database)
    (level : jsobject) (number : sqlval) :
  existsb (level_has_number number) (levels db) = true ->
  existsb (level_has_number number)
    (levels (insertSampleLevel now db level)) = true.
Proof.
  intros H. destruct (settled db level) eqn:E.
  - rewrite insertSampleLevel_settled; assumption.
  - destruct (insertSampleLevel_unsettled now db level E) as (id & _ & ->).
    cbn [levels]. rewrite existsb_app, H. reflexivity.
Qed.

Lemma seeding_steps (clock : jsobject -> string)
    (events : list seeding_event) :
  forall (looked inserted : list jsobject) (db : database)
         (pending : list jsobject),
    scheduled looked inserted events ->
    (forall l, l ∈ looked -> l ∈ sampleLevels) ->
    (forall l, l ∈ inserted -> l ∈ looked) ->
    (forall l, l ∈ pending ->
       l ∈ looked /\ (l ∉ inserted) /\
       existsb (level_has_number (bind_param (field l "number")))
         (levels db) = false) ->
    (forall l, l ∈ looked -> l ∉ pending -> l ∉ inserted ->
       existsb (level_has_number (bind_param (field l "number")))
         (levels db) = true) ->
    (foldl (seeding_step clock) (db, pending) events).1 =
      foldl (fun d l => insertSampleLevel (clock l) d l) db (inserts events).
Proof.
  induction events as [|[l|l] events IH];
    intros looked inserted db pending Hs Hlooked Hins Hpend Hfound;
    [reflexivity| |].
  - (* the lookup of [l] *)
    destruct Hs as (Hl & Hnew & Hs).
    change (inserts (Lookup l :: events)) with (inserts events).
    cbn [foldl]. unfold seeding_step at 2. cbn [fst snd].
    destruct (first_row _) eqn:E.
    + apply (IH (l :: looked) inserted); try assumption.
      * intros l' [->|H]%elem_of_cons; auto.
      * intros l' H. right. auto.
      * intros l' H. destruct (Hpend l' H) as (? & ? & ?).
        split; [right|]; auto.
      * intros l' [->|H]%elem_of_cons Hp Hi; [|auto].
        destruct (existsb _ (levels db)) eqn:F; [reflexivity|].
        apply first_row_select_level_ids in F. congruence.
    + apply first_row_select_level_ids in E.
      apply (IH (l :: looked) inserted); try assumption.
      * intros l' [->|H]%elem_of_cons; auto.
      * intros l' H. right. auto.
      * intros l' [->|H]%elem_of_cons.
        -- split; [left|]. split; [|exact E]. intros H. apply Hnew. auto.
        -- destruct (Hpend l' H) as (? & ? & ?). split; [right|]; auto.
      * intros l' [->|H]%elem_of_cons Hp Hi.
        -- exfalso. apply Hp. left.
        -- apply Hfound; try assumption. intros H'. apply Hp. right. exact H'.
  - (* the insert of [l] *)
    destruct Hs as (Hl & Hnew & Hs).
    change (inserts (Insert l :: events)) with (l :: inserts events).
    cbn [foldl]. unfold seeding_step at 2. cbn [fst snd].
    destruct (bool_decide (l ∈ pending)) eqn:E.
    + apply bool_decide_eq_true in E.
      destruct (Hpend l E) as (_ & _ & Hnone).
      assert (match
                insert_level db (bind_param (field l "number"))
                  (bind_param (field l "title"))
                  (bind_param (field l "description"))
                  (bind_param (field l "icon"))
                  (bind_param (field l "status"))
                  (bind_param (field l "points")) (clock l)
              with
              | Ok (_, db') => db'
              | Err _ => db
              end = insertSampleLevel (clock l) db l) as ->.
      { unfold insertSampleLevel.
        rewrite (proj2 (first_row_select_level_ids _ _) Hnone).
        reflexivity. }
      apply (IH looked (l :: inserted)); try assumption.
      * intros l' [->|H]%elem_of_cons; auto.
      * intros l' [Hne H]%list_elem_of_filter.
        destruct (Hpend l' H) as (H1 & H2 & H3).
        split; [exact H1|]. split.
        -- intros [->|H']%elem_of_cons; [apply Hne; reflexivity | auto].
        -- rewrite insertSampleLevel_lookup; auto.
      * intros l' H Hp Hi.
        apply insertSampleLevel_keeps_found, Hfound; [exact H| |].
        -- intros H'. apply Hp, list_elem_of_filter. split; [|exact H'].
           intros ->. apply Hi. left.
        -- intros H'. apply Hi. right. exact H'.
    + apply bool_decide_eq_false in E.
      rewrite insertSampleLevel_found by (apply Hfound; assumption).
      apply (IH looked (l :: inserted)); try assumption.
      * intros l' [->|H]%elem_of_cons; auto.
      * intros l' H. destruct (Hpend l' H) as (H1 & H2 & H3).
        repeat split; try assumption.
        intros [->|H']%elem_of_cons; [contradiction | auto].
      * intros l' H Hp Hi. apply Hfound; try assumption.
        intros H'. apply Hi. right. exact H'.
Qed.

(** ** The "Dance Forms" scenario *)

(** C9, as the code runs it: on the freshly seeded database the request is
    answered 200 with id 4 and the listing then holds the row with number 4,
    title "Dance Forms" and 120 points; its status is NULL, the insert having
    bound the omitted field as a NULL of its own, and no row with number 4
    has the status "locked". *)
Theorem dance_forms_status_is_null (now now' : string) :
  (post_api_levels (seeded now) dance_forms now').2 =
    mkres 200 (JsonCreated 4 "Level created successfully") /\
  Level.mk 4 (SInt 4) (SText "Dance Forms") SNull SNull SNull (SInt 120) now'
    ∈ select_levels (post_api_levels (seeded now) dance_forms now').1 /\
  forall row,
    row ∈ select_levels (post_api_levels (seeded now) dance_forms now').1 ->
    Level.number row = SInt 4 ->
    Level.status row = SNull /\ Level.status row <> SText "locked".
Proof.
  split; [vm_compute; reflexivity|]. split.
  - vm_compute. do 3 right. left.
  - intros row Hrow. vm_compute in Hrow.
    repeat (apply elem_of_cons in Hrow as [->|Hrow]);
      [discriminate | discriminate | discriminate | | inversion Hrow].
    intros _. split; [reflexivity | discriminate].
Qed.

(** * Further properties of the handlers *)

(** ** Creating a level *)

Lemma new_rowid_room (seq : Z) (ids : list Z) :
  used_rowid seq ids + 1 <= max_rowid ->
  new_rowid seq ids = Ok (used_rowid seq ids + 1).
Proof.
  intros H. apply new_rowid_ok. unfold used_rowid in *. lia.
Qed.

Lemma post_api_levels_cases (db : database) (body : jsobject) (now : string) :
  (exists id,
     post_api_levels db body now =
       (mkdb (levels db ++ [created_level id body now]) id (videos_table db),
        mkres 200 (JsonCreated id "Level created successfully")) /\
     new_rowid (levels_seq db) (Level.id <$> levels db) = Ok id /\
     is_null (affinity_text (bind_param (field body "title"))) = false /\
     existsb
       (fun r =>
          sql_eq (Level.number r)
            (affinity_integer (bind_param (field body "number"))))
       (levels db) = false) \/
  (exists e,
     post_api_levels db body now =
       (db, mkres 500 (JsonError (message e))) /\
     insert_level db (bind_param (field body "number"))
       (bind_param (field body "title"))
       (bind_param (field body "description"))
       (bind_param (field body "icon")) (bind_param (field body "status"))
       (bind_param (field body "points")) now = Err e).
Proof.
  unfold post_api_levels.
  destruct (insert_level _ _ _ _ _ _ _ _) as [[id db']|e] eqn:E.
  - left. exists id. apply insert_level_ok in E as (Hid & Ht & Hn & ->).
    repeat split; assumption.
  - right. exists e. split; reflexivity.
Qed.

(** X1: creating a level either answers 200 and appends exactly the row of
    the body, under an id above every stored id, or answers 500 with the
    storage error and leaves the database as it was; the videos are never
    touched. *)
Theorem create_level_all_or_nothing (db : database) (body : jsobject)
    (now : string) :
  (exists id,
     (post_api_levels db body now).2 =
       mkres 200 (JsonCreated id "Level created successfully") /\
     levels (post_api_levels db body now).1 =
       levels db ++ [created_level id body now] /\
     Forall (fun r => Level.id r < id) (levels db) /\
     videos (post_api_levels db body now).1 = videos db) \/
  (exists e,
     (post_api_levels db body now).2 = mkres 500 (JsonError (message e)) /\
     (post_api_levels db body now).1 = db).
Proof.
  destruct (post_api_levels_cases db body now)
    as [(id & -> & Hid & _)|(e & -> & _)].
  - left. exists id. repeat split.
    apply Forall_forall. intros r Hr.
    apply (new_rowid_fresh _ _ _ Hid), list_elem_of_fmap. exists r. auto.
  - right. exists e. split; reflexivity.
Qed.

Lemma bind_param_null_title (body : jsobject) :
  field body "title" ∈ [JUndefined; JNull] ->
  is_null (affinity_text (bind_param (field body "title"))) = true.
Proof.
  intros H. repeat (apply elem_of_cons in H as [->|H]); try reflexivity.
  inversion H.
Qed.

(** X2: a level sent without a title, or with a null one, is not validated
    by the handler: the NOT NULL constraint refuses it, the answer is 500
    and nothing is stored. *)
Theorem create_level_without_title (db : database) (body : jsobject)
    (now : string) :
  field body "title" ∈ [JUndefined; JNull] ->
  (post_api_levels db body now).1 = db /\
  res_status (post_api_levels db body now).2 = 500 /\
  (levels_room 1 db ->
   res_body (post_api_levels db body now).2 =
     JsonError "SQLITE_CONSTRAINT: NOT NULL constraint failed: levels.title").
Proof.
  intros Ht%bind_param_null_title.
  unfold post_api_levels, insert_level.
  destruct (new_rowid _ _) as [id|e] eqn:E; cbn [Level.title].
  - rewrite Ht. repeat split.
  - repeat split. intros Hroom.
    rewrite (new_rowid_room _ _ Hroom) in E. discriminate.
Qed.

(** A stored integer is met by the number of a body of the same value,
    however the driver binds it. *)
Lemma sql_eq_bound_number (n : Z) :
  sql_eq (SInt n) (affinity_integer (bind_param (JNum n))) = true.
Proof.
  rewrite sql_eq_affinity_integer. cbn [bind_param].
  destruct (int32 n); cbn -[real_eqb]; apply real_eqb_refl.
Qed.

(** X3: a level whose number a stored level already has is refused by the
    UNIQUE constraint: the answer is 500 and nothing is stored. *)
Theorem create_level_taken_number (db : database) (body : jsobject)
    (now : string) (r : Level.t) (n : Z) :
  r ∈ levels db -> Level.number r = SInt n ->
  field body "number" = JNum n ->
  (post_api_levels db body now).1 = db /\
  res_status (post_api_levels db body now).2 = 500 /\
  (levels_room 1 db ->
   is_null (affinity_text (bind_param (field body "title"))) = false ->
   res_body (post_api_levels db body now).2 =
     JsonError "SQLITE_CONSTRAINT: UNIQUE constraint failed: levels.number").
Proof.
  intros Hr Hn Hbody.
  assert (existsb
            (fun r =>
               sql_eq (Level.number r)
                 (affinity_integer (bind_param (field body "number"))))
            (levels db) = true) as Hex.
  { apply existsb_exists. exists r. split; [apply list_elem_of_In, Hr|].
    rewrite Hbody, Hn. apply sql_eq_bound_number. }
  destruct (post_api_levels_cases db body now)
    as [(id & _ & _ & _ & Hfree)|(e & -> & He)]; [congruence|].
  repeat split. intros Hroom Htitle. cbn [snd res_body]. f_equal.
  unfold insert_level in He.
  rewrite (new_rowid_room _ _ Hroom) in He.
  cbn [Level.title Level.number] in He.
  rewrite Htitle, Hex in He.
  injection He as <-. reflexivity.
Qed.

(** ** Fetching by id *)

Lemma filter_unique_key {A : Type} (key : A -> Z) (p : A -> bool) (k : Z)
    (l : list A) (r : A) :
  (forall x, p x = true <-> key x = k) ->
  NoDup (key <$> l) -> r ∈ l -> key r = k ->
  filter (fun x => p x) l = [r].
Proof.
  intros Hp. induction l as [|x l IH]; intros Hnd Hr Hk; [inversion Hr|].
  rewrite fmap_cons in Hnd. apply NoDup_cons in Hnd as [Hx Hnd].
  rewrite filter_cons.
  apply elem_of_cons in Hr as [<-|Hr].
  - rewrite decide_True by (apply Is_true_true, Hp, Hk). f_equal.
    apply (filter_none p). intros y Hy. apply not_true_is_false.
    rewrite Hp. intros Hyk. apply Hx. rewrite Hk, <- Hyk.
    apply list_elem_of_fmap. exists y. auto.
  - rewrite decide_False; [apply IH; assumption|].
    rewrite Is_true_true, Hp. intros Hxk. apply Hx. rewrite Hxk, <- Hk.
    apply list_elem_of_fmap. exists r. auto.
Qed.

(** X4: under the primary key, fetching by an id that names a stored row
    answers 200 with exactly that row, for videos and for levels alike. *)
Theorem fetch_by_id_found (db : database) (id : string) :
  primary_key db ->
  (forall v, v ∈ videos db -> names_id id (Video.id v) ->
     get_api_videos_id db id = mkres 200 (JsonVideo v)) /\
  (forall l, l ∈ levels db -> names_id id (Level.id l) ->
     get_api_levels_id db id = mkres 200 (JsonLevel (Some l))).
Proof.
  intros [Hl Hv]. split.
  - intros v Hin Hid. unfold get_api_videos_id, select_video.
    cbn [bind_param]. unfold videos in Hin, Hv.
    destruct (videos_table db) as [t|]; [|inversion Hin].
    rewrite (filter_unique_key Video.id (video_has_id (SText id))
               (Video.id v) (vt_rows t) v); try done.
    intros x. rewrite video_has_id_text. split; [|intros ->; exact Hid].
    intros Hx. apply (names_id_inj id); assumption.
  - intros l Hin Hid. unfold get_api_levels_id, select_level.
    cbn [bind_param].
    rewrite (filter_unique_key Level.id (level_has_id (SText id))
               (Level.id l) (levels db) l); try done.
    intros x. rewrite level_has_id_text. split; [|intros ->; exact Hid].
    intros Hx. apply (names_id_inj id); assumption.
Qed.

(** X5: when creating a level succeeds, fetching the level under the
    returned id answers 200 with the row made of the body. *)
Theorem create_level_then_fetch (db db' : database) (body : jsobject)
    (now : string) (res : response) :
  post_api_levels db body now = (db', res) -> res_status res = 200 ->
  exists id,
    res_body res = JsonCreated id "Level created successfully" /\
    get_api_levels_id db' (text_of_int id) =
      mkres 200 (JsonLevel (Some (created_level id body now))).
Proof.
  intros Hpost Hok.
  destruct (post_api_levels_cases db body now)
    as [(id & E & Hid & _)|(e & E & _)];
    rewrite E in Hpost; injection Hpost as <- <-; [|discriminate].
  exists id. split; [reflexivity|].
  assert (names_id (text_of_int id) id) as Hname.
  { apply names_id_text_of_int, (new_rowid_int64 _ _ _ Hid). }
  unfold get_api_levels_id, select_level. cbn [levels bind_param].
  rewrite filter_app.
  rewrite (filter_none (level_has_id (SText (text_of_int id)))).
  - rewrite filter_cons, decide_True; [reflexivity|].
    apply Is_true_true, level_has_id_text. exact Hname.
  - intros r Hr. apply not_true_is_false.
    rewrite level_has_id_text. intros Hr'.
    pose proof (names_id_inj _ _ _ Hr' Hname) as E'.
    assert (Level.id r < id); [|lia].
    apply (new_rowid_fresh _ _ _ Hid), list_elem_of_fmap. exists r. auto.
Qed.

(** X27: a level with a title whose number no stored level has is created
    whenever a rowid is left, under the id one above the largest the table
    has ever used. *)
Theorem create_level_accepted (db : database) (body : jsobject)
    (now : string) :
  levels_room 1 db ->
  is_null (affinity_text (bind_param (field body "title"))) = false ->
  (forall r, r ∈ levels db ->
     sql_eq (Level.number r)
       (affinity_integer (bind_param (field body "number"))) = false) ->
  post_api_levels db body now =
    (mkdb (levels db ++
             [created_level
                (used_rowid (levels_seq db) (Level.id <$> levels db) + 1)
                body now])
       (used_rowid (levels_seq db) (Level.id <$> levels db) + 1)
       (videos_table db),
     mkres 200
       (JsonCreated (used_rowid (levels_seq db) (Level.id <$> levels db) + 1)
          "Level created successfully")).
Proof.
  intros Hroom Ht Hfree.
  unfold post_api_levels, insert_level.
  rewrite (new_rowid_room _ _ Hroom). cbn [Level.title Level.number].
  rewrite Ht, existsb_none; [reflexivity|].
  exact Hfree.
Qed.

(** ** Replacing a level *)

Lemma replace_none_named (id : string) (body : jsobject)
    (ls : list Level.t) :
  existsb (level_has_id (SText id)) ls = false ->
  replace_if_named id body <$> ls = ls.
Proof.
  induction ls as [|r ls IH]; [reflexivity|].
  cbn [existsb]. intros [Hr Hls]%orb_false_iff.
  rewrite fmap_cons. unfold replace_if_named at 1. rewrite Hr.
  f_equal. apply IH, Hls.
Qed.

Lemma put_api_levels_id_cases (db : database) (id : string)
    (body : jsobject) :
  (put_api_levels_id db id body =
     (mkdb (replace_if_named id body <$> levels db) (levels_seq db)
        (videos_table db),
      mkres 200 (JsonMessage "Level updated successfully")) /\
   (existsb (level_has_id (SText id)) (levels db) = true ->
    is_null (affinity_text (bind_param (field body "title"))) = false /\
    existsb (fun r => negb (level_has_id (SText id) r) &&
                      sql_eq (Level.number r)
                        (affinity_integer (bind_param (field body "number"))))
      (levels db) = false)) \/
  (put_api_levels_id db id body =
     (db, mkres 500
            (JsonError
               "SQLITE_CONSTRAINT: NOT NULL constraint failed: levels.title"))
   /\ existsb (level_has_id (SText id)) (levels db) = true
   /\ is_null (affinity_text (bind_param (field body "title"))) = true) \/
  (put_api_levels_id db id body =
     (db, mkres 500
            (JsonError
               "SQLITE_CONSTRAINT: UNIQUE constraint failed: levels.number"))
   /\ existsb (level_has_id (SText id)) (levels db) = true
   /\ is_null (affinity_text (bind_param (field body "title"))) = false
   /\ existsb (fun r => negb (level_has_id (SText id) r) &&
                        sql_eq (Level.number r)
                          (affinity_integer (bind_param (field body "number"))))
        (levels db) = true).
Proof.
  unfold put_api_levels_id, update_level.
  change (bind_param (JStr id)) with (SText id). cbv zeta.
  destruct (existsb (level_has_id (SText id)) (levels db)) eqn:Hhit.
  - destruct (is_null _) eqn:Ht.
    { right. left. split; [reflexivity | split; reflexivity]. }
    destruct (existsb (fun r => negb (level_has_id (SText id) r) && _)
                (levels db)) eqn:Hn.
    { right. right. split; [reflexivity | repeat split]. }
    left. split; [reflexivity | intros _; split; reflexivity].
  - left. split; [|discriminate].
    f_equal. rewrite (replace_none_named id body _ Hhit).
    destruct db; reflexivity.
Qed.

Lemma replace_if_named_spec (id : string) (body : jsobject) (r : Level.t) :
  replace_if_named id body r =
  if bool_decide (names_id id (Level.id r)) then replaced_level r body else r.
Proof.
  unfold replace_if_named.
  destruct (level_has_id (SText id) r) eqn:E.
  - rewrite bool_decide_eq_true_2; [reflexivity|].
    apply level_has_id_text, E.
  - rewrite bool_decide_eq_false_2; [reflexivity|].
    rewrite <- level_has_id_text, E. discriminate.
Qed.

Lemma replace_if_named_id (id : string) (body : jsobject) (r : Level.t) :
  Level.id (replace_if_named id body r) = Level.id r.
Proof.
  unfold replace_if_named. destruct (level_has_id _ r); reflexivity.
Qed.

Lemma put_api_levels_id_ok (db db' : database) (id : string)
    (body : jsobject) (res : response) :
  put_api_levels_id db id body = (db', res) -> res_status res = 200 ->
  res = mkres 200 (JsonMessage "Level updated successfully") /\
  db' = mkdb (replace_if_named id body <$> levels db) (levels_seq db)
          (videos_table db).
Proof.
  intros Hput Hok.
  destruct (put_api_levels_id_cases db id body)
    as [(E & _)|[(E & _)|(E & _)]];
    rewrite E in Hput; injection Hput as <- <-;
    [split; reflexivity | discriminate | discriminate].
Qed.

(** X9: a successful replace rewrites, in place, every field but [id] and
    [created_at] of the level the id names with what the body gives, leaves
    every other level as it was, and touches neither the videos nor the
    number of levels. *)
Theorem put_replaces_whole_record (db db' : database) (id : string)
    (body : jsobject) (res : response) :
  put_api_levels_id db id body = (db', res) -> res_status res = 200 ->
  res_body res = JsonMessage "Level updated successfully" /\
  length (levels db') = length (levels db) /\
  (forall (i : nat) (r : Level.t),
     levels db !! i = Some r ->
     levels db' !! i =
       Some (if bool_decide (names_id id (Level.id r))
             then Level.mk (Level.id r)
                    (affinity_integer (bind_param (field body "number")))
                    (affinity_text (bind_param (field body "title")))
                    (affinity_text (bind_param (field body "description")))
                    (affinity_text (bind_param (field body "icon")))
                    (affinity_text (bind_param (field body "status")))
                    (affinity_integer (bind_param (field body "points")))
                    (Level.created_at r)
             else r)) /\
  videos db' = videos db.
Proof.
  intros Hput Hok.
  destruct (put_api_levels_id_ok _ _ _ _ _ Hput Hok) as [-> ->].
  cbn [levels videos res_body]. split; [reflexivity|].
  split; [apply length_fmap|]. split; [|reflexivity].
  intros i r Hr. rewrite list_lookup_fmap, Hr. cbn.
  rewrite replace_if_named_spec. reflexivity.
Qed.


(** X10: a replace is never partial: a field the body leaves out becomes
    NULL in the level the id names, whatever it held before. *)
Theorem put_omitted_fields_become_null (db db' : database) (id : string)
    (body : jsobject) (res : response) (r : Level.t) :
  put_api_levels_id db id body = (db', res) -> res_status res = 200 ->
  r ∈ levels db' -> names_id id (Level.id r) ->
  (body !! "number" = None -> Level.number r = SNull) /\
  (body !! "description" = None -> Level.description r = SNull) /\
  (body !! "icon" = None -> Level.icon r = SNull) /\
  (body !! "status" = None -> Level.status r = SNull) /\
  (body !! "points" = None -> Level.points r = SNull).
Proof.
  intros Hput Hok Hr Hid.
  destruct (put_api_levels_id_ok _ _ _ _ _ Hput Hok) as [_ ->].
  cbn [levels] in Hr. apply list_elem_of_fmap in Hr as (r0 & -> & _).
  rewrite replace_if_named_id in Hid.
  rewrite replace_if_named_spec, bool_decide_eq_true_2 by exact Hid.
  unfold replaced_level, sample_row, field. cbn.
  repeat split; intros ->; reflexivity.
Qed.


Lemma existsb_named (db : database) (id : string) (r : Level.t) :
  r ∈ levels db -> names_id id (Level.id r) ->
  existsb (level_has_id (SText id)) (levels db) = true.
Proof.
  intros Hr Hid. apply existsb_exists. exists r.
  split; [apply list_elem_of_In, Hr | apply level_has_id_text, Hid].
Qed.

(** X11: replacing a stored level with a body that has no title, or a null
    one, is refused by the NOT NULL constraint: the answer is 500 and the
    level keeps what it had. *)
Theorem put_without_title (db : database) (id : string) (body : jsobject)
    (r : Level.t) :
  r ∈ levels db -> names_id id (Level.id r) ->
  field body "title" ∈ [JUndefined; JNull] ->
  put_api_levels_id db id body =
    (db, mkres 500
           (JsonError
              "SQLITE_CONSTRAINT: NOT NULL constraint failed: levels.title")).
Proof.
  intros Hr Hid Ht%bind_param_null_title.
  pose proof (existsb_named db id r Hr Hid) as Hhit.
  destruct (put_api_levels_id_cases db id body)
    as [(_ & H)|[(E & _)|(_ & _ & H & _)]]; [|exact E|congruence].
  destruct (H Hhit) as [H' _]. congruence.
Qed.




Lemma put_api_levels_id_eq (db : database) (id : string) (body : jsobject) :
  put_api_levels_id db id body =
  if existsb (level_has_id (SText id)) (levels db) then
    if is_null (affinity_text (bind_param (field body "title"))) then
      (db, mkres 500 (JsonError (message (NotNullFailed "levels.title"))))
    else if existsb (fun r => negb (level_has_id (SText id) r) &&
                              sql_eq (Level.number r)
                                (affinity_integer
                                   (bind_param (field body "number"))))
              (levels db)
    then (db, mkres 500 (JsonError (message (UniqueFailed "levels.number"))))
    else (mkdb (replace_if_named id body <$> levels db) (levels_seq db)
            (videos_table db),
          mkres 200 (JsonMessage "Level updated successfully"))
  else (db, mkres 200 (JsonMessage "Level updated successfully")).
Proof.
  unfold put_api_levels_id, update_level.
  change (bind_param (JStr id)) with (SText id). cbv zeta.
  destruct (existsb (level_has_id (SText id)) (levels db)); [|reflexivity].
  destruct (is_null _); [reflexivity|].
  destruct (existsb (fun r => negb (level_has_id (SText id) r) && _)
              (levels db)); reflexivity.
Qed.

Lemma existsb_fmap_ext {A : Type} (p : A -> bool) (f : A -> A)
    (l : list A) :
  (forall x, p (f x) = p x) -> existsb p (f <$> l) = existsb p l.
Proof.
  intros H. induction l as [|x l IH]; [reflexivity|].
  cbn. rewrite H, <- IH. reflexivity.
Qed.

Lemma level_has_id_replace (id id' : string) (body : jsobject)
    (r : Level.t) :
  level_has_id (SText id') (replace_if_named id body r) =
  level_has_id (SText id') r.
Proof. unfold level_has_id. rewrite replace_if_named_id. reflexivity. Qed.

Lemma replace_if_named_twice (id : string) (body : jsobject) (r : Level.t) :
  replace_if_named id body (replace_if_named id body r) =
  replace_if_named id body r.
Proof.
  unfold replace_if_named at 1. rewrite level_has_id_replace.
  unfold replace_if_named. destruct (level_has_id (SText id) r); reflexivity.
Qed.

(** X13: sending the same replace twice is the same as sending it once: the
    second request gives the same answer and changes nothing more. *)
Theorem put_twice_is_put_once (db : database) (id : string)
    (body : jsobject) :
  put_api_levels_id (put_api_levels_id db id body).1 id body =
    ((put_api_levels_id db id body).1, (put_api_levels_id db id body).2).
Proof.
  rewrite (put_api_levels_id_eq db id body).
  destruct (existsb (level_has_id (SText id)) (levels db)) eqn:Hhit.
  - destruct (is_null (affinity_text (bind_param (field body "title"))))
      eqn:Ht.
    { cbn [fst snd]. rewrite put_api_levels_id_eq, Hhit, Ht. reflexivity. }
    destruct (existsb (fun r => negb (level_has_id (SText id) r) && _)
                (levels db)) eqn:Hn.
    { cbn [fst snd]. rewrite put_api_levels_id_eq, Hhit, Ht, Hn.
      reflexivity. }
    cbn [fst snd]. rewrite put_api_levels_id_eq. cbn [levels levels_seq
                                                     videos videos_seq].
    rewrite (existsb_fmap_ext (level_has_id (SText id))), Hhit, Ht
      by apply level_has_id_replace.
    rewrite existsb_fmap_ext, Hn.
    + rewrite <- list_fmap_compose.
      rewrite (list_fmap_ext _ (replace_if_named id body)); [reflexivity|].
      intros i r _. apply replace_if_named_twice.
    + intros r. rewrite level_has_id_replace.
      unfold replace_if_named.
      destruct (level_has_id (SText id) r); reflexivity.
  - cbn [fst snd]. rewrite put_api_levels_id_eq, Hhit. reflexivity.
Qed.


(** ** Deleting *)

Lemma filter_twice {A : Type} (p : A -> bool) (l : list A) :
  filter (fun x => p x) (filter (fun x => p x) l) = filter (fun x => p x) l.
Proof.
  apply (filter_all p). intros x Hx.
  apply elem_of_filter_bool in Hx. tauto.
Qed.

Lemma video_in_level_text (param : string) (r : Video.t) :
  video_in_level (SText param) r = true <->
  level_id_is param (Video.level_id r).
Proof.
  unfold video_in_level, int_column_eq, level_id_is.
  cbn [numeric_affinity].
  destruct (read_numeric param) as [[k|x]|] eqn:E.
  - destruct (numeric_affinity (Video.level_id r)); cbn -[real_eqb];
      split; try discriminate; try contradiction; auto.
  - destruct (numeric_affinity (Video.level_id r)); cbn -[real_eqb];
      split; try discriminate; try contradiction; auto.
  - destruct (Video.level_id r) as [|m|x|s]; cbn [numeric_affinity];
      try (cbn; split; discriminate).
    destruct (read_numeric s) as [[m|x]|] eqn:F; cbn.
    + split; [discriminate|]. intros [= ->]. congruence.
    + split; [discriminate|]. intros [= ->]. congruence.
    + split; [intros ->%String.eqb_eq; reflexivity|].
      intros [= ->]. apply String.eqb_refl.
Qed.

Lemma has_videos_table_rows (db : database) :
  has_videos_table db ->
  exists t, videos_table db = Some t /\ videos db = vt_rows t.
Proof.
  unfold has_videos_table, videos.
  destruct (videos_table db) as [t|]; [eauto | contradiction].
Qed.

(** X14: on a file that has a [videos] table, deleting a video answers 200,
    removes exactly the video the id names and keeps the others in their
    order, leaves the levels alone, and fetching the video afterwards
    answers 404. *)
Theorem delete_video_then_fetch (db : database) (id : string) :
  has_videos_table db ->
  (delete_api_videos_id db id).2 =
    mkres 200 (JsonMessage "Video deleted successfully") /\
  (forall v, v ∈ videos (delete_api_videos_id db id).1 <->
             v ∈ videos db /\ ~ names_id id (Video.id v)) /\
  videos (delete_api_videos_id db id).1 `sublist_of` videos db /\
  levels (delete_api_videos_id db id).1 = levels db /\
  get_api_videos_id (delete_api_videos_id db id).1 id =
    mkres 404 (JsonError "Video not found").
Proof.
  intros (t & Ht & Hrows)%has_videos_table_rows. rewrite Hrows.
  unfold delete_api_videos_id, delete_video. rewrite Ht.
  cbn [fst snd levels videos videos_table vt_rows bind_param].
  split; [reflexivity|]. split; [|split; [|split; [reflexivity|]]].
  - intros v. rewrite list_elem_of_filter, negb_True, Is_true_true.
    rewrite video_has_id_text. tauto.
  - apply sublist_filter.
  - unfold get_api_videos_id, select_video.
    cbn [videos_table vt_rows bind_param].
    rewrite (filter_out_then_in (video_has_id (SText id))). reflexivity.
Qed.

(** X15: when deleting a level is answered 200, fetching the level
    afterwards answers 200 with no row; the delete is answered 200 exactly
    when the file has a [videos] table, and otherwise nothing is deleted. *)
Theorem delete_level_then_fetch (db : database) (id : string) :
  (has_videos_table db ->
   (delete_api_levels_id db id).2 =
     mkres 200
       (JsonMessage "Level and associated videos deleted successfully") /\
   get_api_levels_id (delete_api_levels_id db id).1 id =
     mkres 200 (JsonLevel None)) /\
  (res_status (delete_api_levels_id db id).2 = 200 -> has_videos_table db) /\
  (res_status (delete_api_levels_id db id).2 <> 200 ->
   (delete_api_levels_id db id).1 = db).
Proof.
  unfold has_videos_table, delete_api_levels_id, delete_videos_of_level.
  destruct (videos_table db) as [t|]; cbn [fst snd res_status].
  - split; [|split; [discriminate | intros H; contradiction H; reflexivity]].
    intros _. split; [reflexivity|].
    unfold get_api_levels_id, select_level, delete_level.
    cbn [levels bind_param].
    rewrite (filter_out_then_in (level_has_id (SText id))). reflexivity.
  - split; [intros H; contradiction|]. split; [discriminate|reflexivity].
Qed.

(** X16: deleting twice is deleting once, for a level with its videos and
    for a video: the second request is answered as the first and changes
    nothing more. *)
Theorem delete_twice_is_delete_once (db : database) (id : string) :
  delete_api_levels_id (delete_api_levels_id db id).1 id =
    delete_api_levels_id db id /\
  delete_api_videos_id (delete_api_videos_id db id).1 id =
    delete_api_videos_id db id.
Proof.
  unfold delete_api_levels_id, delete_api_videos_id, delete_level,
    delete_videos_of_level, delete_video.
  destruct (videos_table db) as [t|] eqn:Ht;
    cbn [fst levels levels_seq videos_table vt_rows vt_seq bind_param];
    [|rewrite Ht; split; reflexivity].
  rewrite (filter_twice (fun r => negb (level_has_id (SText id) r))).
  rewrite (filter_twice (fun r => negb (video_in_level (SText id) r))).
  rewrite (filter_twice (fun r => negb (video_has_id (SText id) r))).
  split; reflexivity.
Qed.

(** X26: deleting a level orphans no video that stays: a video left after
    the delete whose [level_id] was the id of a stored level still finds
    that level. *)
Theorem delete_level_keeps_owners (db : database) (L : string)
    (v : Video.t) (l : Level.t) :
  v ∈ videos (delete_api_levels_id db L).1 ->
  l ∈ levels db -> Video.level_id v = SInt (Level.id l) ->
  l ∈ levels (delete_api_levels_id db L).1.
Proof.
  unfold delete_api_levels_id, delete_level, delete_videos_of_level, videos.
  destruct (videos_table db) as [t|];
    cbn [fst levels videos_table vt_rows bind_param]; [|auto].
  rewrite !list_elem_of_filter, !negb_True, !Is_true_true.
  intros [Hv _] Hl E. split; [|exact Hl].
  intros Hid. apply Hv. unfold video_in_level. rewrite E. exact Hid.
Qed.

(** ** The handlers of videos on a file that has the table *)

(** X31: on a file that has a [videos] table, deleting level [L] answers 200,
    leaves exactly the videos whose [level_id] is not [L] and exactly the
    levels whose id is not [L], and listing the videos of [L] afterwards
    yields the empty list. *)
Theorem delete_level_removes_its_videos (db : database) (L : string) :
  has_videos_table db ->
  (delete_api_levels_id db L).2 =
    mkres 200
      (JsonMessage "Level and associated videos deleted successfully") /\
  (forall v, v ∈ videos (delete_api_levels_id db L).1 <->
             v ∈ videos db /\ ~ level_id_is L (Video.level_id v)) /\
  (forall l, l ∈ levels (delete_api_levels_id db L).1 <->
             l ∈ levels db /\ ~ names_id L (Level.id l)) /\
  get_api_videos_level (delete_api_levels_id db L).1 L =
    mkres 200 (JsonVideos []).
Proof.
  intros (t & Ht & Hrows)%has_videos_table_rows. rewrite Hrows.
  unfold delete_api_levels_id, delete_level, delete_videos_of_level.
  rewrite Ht. cbn [fst snd levels videos videos_table vt_rows bind_param].
  split; [reflexivity|]. split; [|split].
  - intros v. rewrite list_elem_of_filter, negb_True, Is_true_true.
    rewrite video_in_level_text. tauto.
  - intros l. rewrite list_elem_of_filter, negb_True, Is_true_true.
    rewrite level_has_id_text. tauto.
  - unfold get_api_videos_level, res_json, select_videos_of_level.
    cbn [videos_table vt_rows bind_param].
    rewrite (filter_out_then_in (video_in_level (SText L))). reflexivity.
Qed.

(** X32: for an id that names no level, fetching the level answers 200 with
    no row; on a file that has a [videos] table, fetching a video by an id
    that names no video answers 404 with the error "Video not found"; the
    two answers differ. *)
Theorem absent_video_404_absent_level_200 (db : database) (id : string) :
  (has_videos_table db -> no_video_named db id ->
   get_api_videos_id db id = mkres 404 (JsonError "Video not found")) /\
  (no_level_named db id ->
   get_api_levels_id db id = mkres 200 (JsonLevel None)) /\
  res_status (mkres 404 (JsonError "Video not found")) <>
  res_status (mkres 200 (JsonLevel None)).
Proof.
  split; [|split].
  - intros (t & Ht & Hrows)%has_videos_table_rows H.
    pose proof (no_video_named_spec db id H) as Hno. rewrite Hrows in Hno.
    unfold get_api_videos_id, select_video. rewrite Ht. cbn [bind_param].
    rewrite (filter_none (video_has_id (SText id))) by exact Hno.
    reflexivity.
  - intros H. unfold get_api_levels_id, select_level. cbn [bind_param].
    rewrite (filter_none (level_has_id (SText id)))
      by exact (no_level_named_spec db id H).
    reflexivity.
  - discriminate.
Qed.

(** X33: replacing a level under an id that names no level selects no row,
    leaves the database as it was and still answers 200 with the success
    message; so does, on a file that has a [videos] table, deleting a video
    under an id that names no video. *)
Theorem writes_to_absent_ids_report_success (db : database) (id : string)
    (body : jsobject) :
  (no_level_named db id ->
   select_level db (SText id) = [] /\
   put_api_levels_id db id body =
     (db, mkres 200 (JsonMessage "Level updated successfully"))) /\
  (has_videos_table db -> no_video_named db id ->
   select_video db (SText id) = Ok [] /\
   delete_api_videos_id db id =
     (db, mkres 200 (JsonMessage "Video deleted successfully"))).
Proof.
  split.
  - intros H. pose proof (no_level_named_spec db id H) as Hno. split.
    + apply (filter_none (level_has_id (SText id))), Hno.
    + unfold put_api_levels_id, update_level. cbn [bind_param].
      rewrite (existsb_none _ _ Hno). reflexivity.
  - intros (t & Ht & Hrows)%has_videos_table_rows H.
    pose proof (no_video_named_spec db id H) as Hno. rewrite Hrows in Hno.
    unfold select_video, delete_api_videos_id, delete_video. rewrite Ht.
    cbn [bind_param]. split.
    + f_equal. apply (filter_none (video_has_id (SText id))), Hno.
    + rewrite (filter_all (fun r => negb (video_has_id (SText id) r))).
      * destruct db as [ls seq vt]. cbn in Ht |- *. subst vt.
        destruct t. reflexivity.
      * intros r Hr. rewrite (Hno r Hr). reflexivity.
Qed.

(** ** Listing videos with their levels *)

Lemma sql_eq_int_inj (v : sqlval) (a b : Z) :
  sql_eq v (SInt a) = true -> sql_eq v (SInt b) = true -> a = b.
Proof.
  destruct v as [|n|r|s]; cbn -[real_eqb]; try discriminate;
    apply real_eqb_int_inj.
Qed.

Section LeftJoin.
Variable ls : list Level.t.
Hypothesis ls_key : NoDup (Level.id <$> ls).

(** Under the primary key a value equals the id of at most one level. *)
Lemma at_most_one_level (v : sqlval) :
  filter (fun l => sql_eq v (SInt (Level.id l))) ls = [] \/
  exists l, filter (fun l => sql_eq v (SInt (Level.id l))) ls = [l].
Proof.
  induction ls as [|l ls' IH]; [left; reflexivity|].
  rewrite fmap_cons in ls_key. apply NoDup_cons in ls_key as [Hl Hls'].
  rewrite filter_cons.
  destruct (sql_eq v (SInt (Level.id l))) eqn:E; cbn.
  - rewrite decide_True by exact I. right. exists l. f_equal.
    apply (filter_none (fun l => sql_eq v (SInt (Level.id l)))).
    intros l' Hl'. apply not_true_is_false. intros E'.
    apply Hl. rewrite (sql_eq_int_inj _ _ _ E E').
    apply list_elem_of_fmap. exists l'. auto.
  - rewrite decide_False by tauto. apply IH, Hls'.
Qed.

Lemma left_join_video (v : Video.t) : Joined.video <$> left_join v ls = [v].
Proof.
  unfold left_join.
  destruct (at_most_one_level (Video.level_id v)) as [->|[l ->]];
    reflexivity.
Qed.

Lemma left_join_matched (v : Video.t) (l : Level.t) (r : Joined.t) :
  r ∈ left_join v ls -> l ∈ ls ->
  sql_eq (Video.level_id v) (SInt (Level.id l)) = true ->
  r = joined_with v l.
Proof.
  unfold left_join. intros Hr Hl E.
  assert (l ∈ filter (fun l => sql_eq (Video.level_id v) (SInt (Level.id l)))
                     ls) as Hin.
  { apply elem_of_filter_bool. split; [exact Hl | exact E]. }
  destruct (at_most_one_level (Video.level_id v)) as [H0|[l0 H1]].
  - rewrite H0 in Hin. inversion Hin.
  - rewrite H1 in Hin, Hr. apply list_elem_of_singleton in Hin as ->.
    apply list_elem_of_singleton in Hr. exact Hr.
Qed.

Lemma left_join_orphan (v : Video.t) (r : Joined.t) :
  r ∈ left_join v ls ->
  (forall l, l ∈ ls ->
     sql_eq (Video.level_id v) (SInt (Level.id l)) = false) ->
  r = Joined.mk v SNull SNull.
Proof.
  unfold left_join. intros Hr Hno.
  rewrite (filter_none
             (fun l => sql_eq (Video.level_id v) (SInt (Level.id l))))
    in Hr by exact Hno.
  apply list_elem_of_singleton in Hr. exact Hr.
Qed.

Lemma flat_map_left_join_video (vs : list Video.t) :
  Joined.video <$> flat_map (fun v => left_join v ls) vs = vs.
Proof.
  induction vs as [|v vs IH]; [reflexivity|].
  cbn [flat_map]. rewrite fmap_app, left_join_video, IH. reflexivity.
Qed.

Lemma elem_of_flat_map_left_join (vs : list Video.t) (r : Joined.t) :
  r ∈ flat_map (fun v => left_join v ls) vs ->
  r ∈ left_join (Joined.video r) ls.
Proof.
  induction vs as [|v vs IH]; cbn [flat_map]; [inversion 1|].
  intros [Hr|Hr]%elem_of_app; [|apply IH, Hr].
  assert (Joined.video r ∈ Joined.video <$> left_join v ls) as Hv.
  { apply list_elem_of_fmap. exists r. auto. }
  rewrite left_join_video in Hv. apply list_elem_of_singleton in Hv.
  rewrite Hv. exact Hr.
Qed.

End LeftJoin.

(** X34: on a file that has a [videos] table and under the primary key of
    [levels], the listing of videos answers 200 with one row for every
    stored video, carrying the whole video row with its [video_data]; a row
    carries the [number] and [title] of the level whose id its [level_id]
    equals, and NULL for both when there is no such level; the rows are
    ascending in the level number and, among equal level numbers, in the
    video title. *)
Theorem videos_listed_with_levels (db : database) :
  has_videos_table db -> primary_key db ->
  exists rows,
    get_api_videos db = mkres 200 (JsonJoined rows) /\
    Joined.video <$> rows ≡ₚ videos db /\
    (forall r, r ∈ rows ->
       (forall l, l ∈ levels db ->
          sql_eq (Video.level_id (Joined.video r)) (SInt (Level.id l)) = true ->
          Joined.level_number r = Level.number l /\
          Joined.level_title r = Level.title l) /\
       ((forall l, l ∈ levels db ->
           sql_eq (Video.level_id (Joined.video r)) (SInt (Level.id l))
             = false) ->
        Joined.level_number r = SNull /\ Joined.level_title r = SNull)) /\
    ascending Joined.level_number rows /\
    then_ascending Joined.level_number
      (fun r => Video.title (Joined.video r)) rows.
Proof.
  intros (t & Ht & Hrows)%has_videos_table_rows [Hkey _].
  exists (order_by joined_leb
            (flat_map (fun v => left_join v (levels db)) (vt_rows t))).
  assert (forall i j a b, (i < j)%nat ->
            order_by joined_leb
              (flat_map (fun v => left_join v (levels db)) (vt_rows t)) !! i
              = Some a ->
            order_by joined_leb
              (flat_map (fun v => left_join v (levels db)) (vt_rows t)) !! j
              = Some b ->
            joined_leb a b = true) as Hsorted.
  { intros i j a b. apply order_by_lookup.
    - apply joined_leb_total.
    - apply joined_leb_trans. }
  split; [|split; [|split; [|split]]].
  - unfold get_api_videos, select_videos_joined. rewrite Ht. reflexivity.
  - rewrite order_by_perm, Hrows.
    rewrite (flat_map_left_join_video _ Hkey). reflexivity.
  - intros r Hr. rewrite order_by_perm in Hr.
    apply (elem_of_flat_map_left_join _ Hkey) in Hr. split.
    + intros l Hl E.
      rewrite (left_join_matched _ Hkey _ l r Hr Hl E). auto.
    + intros Hno.
      rewrite (left_join_orphan _ _ r Hr Hno). auto.
  - intros i j a b Hij Ha Hb.
    apply (joined_leb_spec a b), (Hsorted i j a b Hij Ha Hb).
  - intros i j a b Hij Ha Hb.
    apply (joined_leb_spec a b), (Hsorted i j a b Hij Ha Hb).
Qed.

(** ** Uploading a video *)


(** X7: on a file that has a [videos] table, an upload that carries a
    payload and a title is stored whenever a rowid is left, whatever its
    [level_id]: no level is looked up, so a video of a level that does not
    exist is accepted. *)
Theorem upload_needs_no_level (db : database) (body : jsobject)
    (now : string) :
  has_videos_table db ->
  truthy (field body "videoData") = true ->
  is_null (affinity_text (bind_param (field body "title"))) = false ->
  videos_room 1 db ->
  post_api_videos db body now =
    (mkdb (levels db) (levels_seq db)
       (Some
          (mkvt
             (videos db ++
                [created_video
                   (used_rowid (videos_seq db) (Video.id <$> videos db) + 1)
                   body now])
             (used_rowid (videos_seq db) (Video.id <$> videos db) + 1))),
     mkres 200
       (JsonCreated (used_rowid (videos_seq db) (Video.id <$> videos db) + 1)
          "Video uploaded successfully")).
Proof.
  intros Htable Hdata Htitle Hroom.
  destruct (post_api_videos_cases db body now)
    as [(id & E & _ & _ & Hid & _)|[(_ & E)|(e & _ & _ & E)]].
  - rewrite (new_rowid_room _ _ Hroom) in Hid. injection Hid as <-. exact E.
  - congruence.
  - exfalso. unfold insert_video in E.
    destruct (has_videos_table_rows db Htable) as (t & Ht & Hrows).
    unfold videos_room, videos_seq in Hroom. rewrite Hrows, Ht in Hroom.
    rewrite Ht, (new_rowid_room _ _ Hroom) in E.
    cbn [Video.title] in E. rewrite Htitle in E. discriminate.
Qed.

(** ** Ids over the life of the database *)

Lemma insertSampleLevel_seq (now : string) (db : database)
    (level : jsobject) :
  levels_seq db <= levels_seq (insertSampleLevel now db level) /\
  videos_table (insertSampleLevel now db level) = videos_table db.
Proof.
  destruct (settled db level) eqn:E.
  - rewrite insertSampleLevel_settled by exact E. split; [lia|reflexivity].
  - destruct (insertSampleLevel_unsettled now db level E)
      as (id & [_ ->]%new_rowid_ok & ->).
    cbn [levels_seq videos_table]. split; [lia|reflexivity].
Qed.

Lemma insertSampleData_seq (order : list jsobject)
    (clock : jsobject -> string) (db : database) :
  levels_seq db <= levels_seq (insertSampleData order clock db) /\
  videos_table (insertSampleData order clock db) = videos_table db.
Proof.
  unfold insertSampleData. revert db.
  induction order as [|l samples IH]; intros db; cbn [foldl];
    [split; [lia|reflexivity]|].
  destruct (IH (insertSampleLevel (clock l) db l)) as [H1 H2].
  destruct (insertSampleLevel_seq (clock l) db l) as [H3 H4].
  split; [lia | congruence].
Qed.

(** The AUTOINCREMENT counters never go down, and no handler makes or
    drops the [videos] table. *)
Lemma handles_seq (db db' : database) :
  handles db db' ->
  levels_seq db <= levels_seq db' /\ videos_seq db <= videos_seq db' /\
  (videos_table db = None <-> videos_table db' = None).
Proof.
  destruct 1
    as [order clock db _|db body now|db id body|db id|db body now|db id].
  - destruct (insertSampleData_seq order clock db) as [H1 H2].
    unfold videos_seq. rewrite H2. repeat split; auto; lia.
  - destruct (post_api_levels_cases db body now)
      as [(k & -> & [_ ->]%new_rowid_ok & _)|(e & -> & _)];
      cbn [fst levels_seq]; unfold videos_seq; cbn [videos_table];
      repeat split; auto; lia.
  - destruct (put_api_levels_id_cases db id body)
      as [(-> & _)|[(-> & _)|(-> & _)]];
      cbn [fst levels_seq]; unfold videos_seq; cbn [videos_table];
      repeat split; auto; lia.
  - unfold delete_api_levels_id, delete_level, delete_videos_of_level,
      videos_seq.
    destruct (videos_table db) as [t|] eqn:Ht;
      cbn [fst levels_seq videos_table vt_seq]; rewrite ?Ht;
      repeat split; auto; try lia; discriminate.
  - destruct (post_api_videos_cases db body now)
      as [(k & -> & Ht & _ & [_ ->]%new_rowid_ok & _)|[(-> & _)|(e & -> & _)]];
      cbn [fst levels_seq]; unfold videos_seq; cbn [videos_table vt_seq];
      repeat split; auto; try lia; try discriminate.
    intros H. contradiction.
  - unfold delete_api_videos_id, delete_video, videos_seq.
    destruct (videos_table db) as [t|] eqn:Ht;
      cbn [fst levels_seq videos_table vt_seq]; rewrite ?Ht;
      repeat split; auto; try lia; discriminate.
Qed.

Lemma rtc_handles_seq (db db' : database) :
  rtc handles db db' ->
  levels_seq db <= levels_seq db' /\ videos_seq db <= videos_seq db' /\
  (videos_table db = None <-> videos_table db' = None).
Proof.
  induction 1 as [db|db db1 db2 H1 _ IH]; [repeat split; auto; lia|].
  apply handles_seq in H1. destruct H1 as (? & ? & ?), IH as (? & ? & ?).
  repeat split; try lia; tauto.
Qed.

(** X19: the id of a created level is never handed out again: whatever the
    server does in between, deleting that level included, a later create
    returns a larger id. *)
Theorem level_ids_never_reused (db0 db1 db2 db3 : database)
    (body body' : jsobject) (now now' msg msg' : string) (res res' : response)
    (id id' : Z) :
  post_api_levels db0 body now = (db1, res) ->
  res_body res = JsonCreated id msg ->
  rtc handles db1 db2 ->
  post_api_levels db2 body' now' = (db3, res') ->
  res_body res' = JsonCreated id' msg' ->
  id < id'.
Proof.
  intros H1 R1 Hsteps H2 R2.
  destruct (post_api_levels_cases db0 body now)
    as [(k & E & _)|(e & E & _)];
    rewrite E in H1; injection H1 as <- <-; [|discriminate].
  injection R1 as <- _.
  destruct (post_api_levels_cases db2 body' now')
    as [(k' & E' & [_ Hk']%new_rowid_ok & _)|(e & E' & _)];
    rewrite E' in H2; injection H2 as <- <-; [|discriminate].
  injection R2 as <- _.
  apply rtc_handles_seq in Hsteps as [Hseq _].
  cbn [levels_seq] in Hseq. lia.
Qed.

(** ** What the schema keeps *)

Lemma Forall_sublist {A : Type} (P : A -> Prop) (l1 l2 : list A) :
  l1 `sublist_of` l2 -> Forall P l2 -> Forall P l1.
Proof.
  rewrite !Forall_forall. intros Hsub H x Hx.
  apply H. eapply elem_of_sublist; eassumption.
Qed.

Lemma StronglySorted_sublist {A : Type} (R : A -> A -> Prop)
    (l1 l2 : list A) :
  l1 `sublist_of` l2 -> StronglySorted R l2 -> StronglySorted R l1.
Proof.
  induction 1 as [|x l1 l2 Hsub IH|x l1 l2 Hsub IH];
    intros Hs; [constructor| |]; apply StronglySorted_inv in Hs as [Hs Hx].
  - constructor; [apply IH, Hs|]. apply (Forall_sublist _ _ _ Hsub Hx).
  - apply IH, Hs.
Qed.

Lemma numbers_distinct_sublist (l1 l2 : list Level.t) :
  l1 `sublist_of` l2 -> numbers_distinct l2 -> numbers_distinct l1.
Proof.
  induction 1 as [|x l1 l2 Hsub IH|x l1 l2 Hsub IH]; cbn;
    [tauto| |]; intros [Hx Hs].
  - split; [apply (Forall_sublist _ _ _ Hsub Hx) | apply IH, Hs].
  - apply IH, Hs.
Qed.

Lemma StronglySorted_snoc {A : Type} (R : A -> A -> Prop) (l : list A)
    (x : A) :
  StronglySorted R l -> Forall (fun y => R y x) l ->
  StronglySorted R (l ++ [x]).
Proof.
  induction 1 as [|y l Hs IH Hy]; intros Hx; cbn; [repeat constructor|].
  apply Forall_cons in Hx as [Hyx Hx].
  constructor; [apply IH, Hx|].
  apply Forall_app. split; [exact Hy | repeat constructor; exact Hyx].
Qed.

Lemma rowids_in_order_snoc (seq id : Z) (ids : list Z) :
  rowids_in_order seq ids -> new_rowid seq ids = Ok id ->
  rowids_in_order id (ids ++ [id]).
Proof.
  intros [Hs Hb] Hid. pose proof (new_rowid_fresh _ _ _ Hid) as Hfresh.
  apply new_rowid_ok in Hid as [_ ->].
  pose proof (largest_rowid_nonneg ids). split.
  - apply StronglySorted_snoc; [exact Hs|].
    apply Forall_forall. exact Hfresh.
  - apply Forall_app. split.
    + eapply Forall_impl; [exact Hb|]. cbn. intros x ?. lia.
    + repeat constructor; lia.
Qed.

Lemma rowids_in_order_NoDup (seq : Z) (ids : list Z) :
  rowids_in_order seq ids -> NoDup ids.
Proof.
  intros [Hs _]. induction Hs as [|x l Hs IH Hx]; constructor; [|exact IH].
  rewrite Forall_forall in Hx. intros Hin. specialize (Hx x Hin). lia.
Qed.

Lemma numbers_distinct_snoc (ls : list Level.t) (row : Level.t) :
  numbers_distinct ls ->
  existsb (fun r => sql_eq (Level.number r) (Level.number row)) ls = false ->
  numbers_distinct (ls ++ [row]).
Proof.
  induction ls as [|r ls IH]; cbn; [intros _ _; split; constructor|].
  intros [Hr Hls] [Hrow Hex]%orb_false_iff. split; [|apply IH; assumption].
  apply Forall_app. split; [exact Hr|]. repeat constructor. exact Hrow.
Qed.

Lemma numbers_distinct_replace (id : string) (body : jsobject)
    (ls : list Level.t) :
  NoDup (Level.id <$> ls) -> numbers_distinct ls ->
  existsb (fun r => negb (level_has_id (SText id) r) &&
                    sql_eq (Level.number r)
                      (affinity_integer (bind_param (field body "number"))))
    ls = false ->
  numbers_distinct (replace_if_named id body <$> ls).
Proof.
  induction ls as [|r ls IH]; [intros; exact I|].
  rewrite !fmap_cons. cbn [numbers_distinct existsb].
  intros [Hid Hnd]%NoDup_cons [Hr Hls] [Hhead Hex]%orb_false_iff.
  split; [|apply IH; assumption].
  apply Forall_fmap, Forall_forall. intros r' Hr'. cbn.
  rewrite Forall_forall in Hr. specialize (Hr r' Hr').
  assert (negb (level_has_id (SText id) r') &&
          sql_eq (Level.number r')
            (affinity_integer (bind_param (field body "number"))) = false)
    as Hr'new.
  { rewrite <- not_true_iff_false in Hex |- *. intros E. apply Hex.
    apply existsb_exists. exists r'. split; [apply list_elem_of_In, Hr'|].
    exact E. }
  unfold replace_if_named.
  destruct (level_has_id (SText id) r) eqn:E;
    destruct (level_has_id (SText id) r') eqn:E';
    cbn [negb andb replaced_level sample_row Level.number] in *.
  - exfalso. apply Hid. apply level_has_id_text in E, E'.
    rewrite (names_id_inj id _ _ E E').
    apply list_elem_of_fmap. exists r'. auto.
  - rewrite sql_eq_sym. exact Hr'new.
  - exact Hhead.
  - exact Hr.
Qed.

Lemma affinity_text_is_text (v : sqlval) :
  is_null (affinity_text v) = false -> is_text (affinity_text v).
Proof.
  destruct v as [|n|r|s]; cbn; [discriminate| | |]; intros _; eexists;
    reflexivity.
Qed.

Lemma well_formed_insert_level (db : database) (body : jsobject)
    (now : string) (id : Z) :
  well_formed db ->
  new_rowid (levels_seq db) (Level.id <$> levels db) = Ok id ->
  is_null (affinity_text (bind_param (field body "title"))) = false ->
  existsb
    (fun r =>
       sql_eq (Level.number r)
         (affinity_integer (bind_param (field body "number"))))
    (levels db) = false ->
  well_formed (mkdb (levels db ++ [sample_row id body now]) id
                 (videos_table db)).
Proof.
  intros (Hl & Hv & Htl & Htv & Hn & Hs) Hid Ht Hfree.
  unfold well_formed, numbers_stored. cbn [levels levels_seq].
  split; [|split; [exact Hv|split; [|split; [exact Htv|split]]]].
  - rewrite fmap_snoc. apply (rowids_in_order_snoc _ _ _ Hl Hid).
  - apply Forall_app. split; [exact Htl|]. repeat constructor.
    apply affinity_text_is_text, Ht.
  - apply numbers_distinct_snoc; [exact Hn | exact Hfree].
  - apply Forall_app. split; [exact Hs|]. repeat constructor.
    apply affinity_integer_stored.
Qed.

Lemma well_formed_insert_video (db : database) (body : jsobject)
    (now : string) (id : Z) :
  well_formed db ->
  new_rowid (videos_seq db) (Video.id <$> videos db) = Ok id ->
  is_null (affinity_text (bind_param (field body "title"))) = false ->
  well_formed (mkdb (levels db) (levels_seq db)
                 (Some (mkvt (videos db ++ [created_video id body now]) id))).
Proof.
  intros (Hl & Hv & Htl & Htv & Hn & Hs) Hid Ht.
  unfold well_formed, numbers_stored, videos, videos_seq.
  cbn [levels levels_seq videos_table vt_rows vt_seq].
  split; [exact Hl|split; [|split; [exact Htl|split; [|split; assumption]]]].
  - rewrite fmap_snoc. apply (rowids_in_order_snoc _ _ _ Hv Hid).
  - apply Forall_app. split; [exact Htv|]. repeat constructor.
    apply affinity_text_is_text, Ht.
Qed.

Lemma well_formed_sublist (db db' : database) :
  well_formed db ->
  levels db' `sublist_of` levels db -> levels_seq db' = levels_seq db ->
  videos db' `sublist_of` videos db -> videos_seq db' = videos_seq db ->
  well_formed db'.
Proof.
  intros (Hl & Hv & Htl & Htv & Hn & Hs) Hls Hlseq Hvs Hvseq.
  unfold well_formed, numbers_stored. rewrite Hlseq, Hvseq.
  repeat split.
  - apply (StronglySorted_sublist _ _ (Level.id <$> levels db));
      [apply fmap_sublist, Hls | apply Hl].
  - apply (Forall_sublist _ _ (Level.id <$> levels db));
      [apply fmap_sublist, Hls | apply Hl].
  - apply (StronglySorted_sublist _ _ (Video.id <$> videos db));
      [apply fmap_sublist, Hvs | apply Hv].
  - apply (Forall_sublist _ _ (Video.id <$> videos db));
      [apply fmap_sublist, Hvs | apply Hv].
  - apply (Forall_sublist _ _ _ Hls Htl).
  - apply (Forall_sublist _ _ _ Hvs Htv).
  - apply (numbers_distinct_sublist _ _ Hls Hn).
  - apply (Forall_sublist _ _ _ Hls Hs).
Qed.

Lemma fmap_id_replace (id : string) (body : jsobject) (ls : list Level.t) :
  Level.id <$> (replace_if_named id body <$> ls) = Level.id <$> ls.
Proof.
  rewrite <- list_fmap_compose. apply list_fmap_ext.
  intros i r _. apply replace_if_named_id.
Qed.

Lemma insertSampleLevel_well_formed (now : string) (db : database)
    (level : jsobject) :
  well_formed db -> well_formed (insertSampleLevel now db level).
Proof.
  intros Hwf. destruct (settled db level) eqn:E.
  - rewrite insertSampleLevel_settled; assumption.
  - destruct (insertSampleLevel_unsettled now db level E) as (id & Hid & ->).
    unfold settled in E. rewrite Hid in E.
    apply orb_false_iff in E as [Ht Hfree].
    apply well_formed_insert_level; try assumption.
    apply lookup_none_unique, Hfree.
Qed.

Lemma handles_well_formed (db db' : database) :
  handles db db' -> well_formed db -> well_formed db'.
Proof.
  destruct 1
    as [order clock db _|db body now|db id body|db id|db body now|db id];
    intros Hwf.
  - unfold insertSampleData. revert db Hwf.
    induction order as [|l samples IH]; intros db Hwf; [exact Hwf|].
    cbn [foldl]. apply IH, insertSampleLevel_well_formed, Hwf.
  - destruct (post_api_levels_cases db body now)
      as [(k & -> & Hk & Ht & Hfree)|(e & -> & _)]; [|exact Hwf].
    apply well_formed_insert_level; assumption.
  - destruct (put_api_levels_id_cases db id body)
      as [(-> & Hok)|[(-> & _)|(-> & _)]]; try exact Hwf.
    cbn [fst].
    destruct (existsb (level_has_id (SText id)) (levels db)) eqn:Hhit.
    + destruct (Hok eq_refl) as [Ht Hfree].
      destruct Hwf as (Hl & Hv & Htl & Htv & Hn & Hs).
      unfold well_formed, numbers_stored. cbn [levels levels_seq].
      rewrite fmap_id_replace.
      split; [exact Hl|split; [exact Hv|split; [|split; [exact Htv|split]]]].
      * apply Forall_fmap. eapply Forall_impl; [exact Htl|].
        intros r Hr. cbn. unfold replace_if_named.
        destruct (level_has_id (SText id) r); [|exact Hr].
        apply affinity_text_is_text, Ht.
      * apply numbers_distinct_replace; [|exact Hn|exact Hfree].
        apply (rowids_in_order_NoDup _ _ Hl).
      * apply Forall_fmap. eapply Forall_impl; [exact Hs|].
        intros r Hr. cbn. unfold replace_if_named.
        destruct (level_has_id (SText id) r); [|exact Hr].
        apply affinity_integer_stored.
    + rewrite (replace_none_named id body _ Hhit). destruct db; exact Hwf.
  - unfold delete_api_levels_id, delete_level, delete_videos_of_level.
    destruct (videos_table db) as [t|] eqn:Ht; [|exact Hwf]. cbn [fst].
    apply (well_formed_sublist db); [exact Hwf|..];
      unfold videos, videos_seq; rewrite ?Ht;
      cbn [levels levels_seq videos_table vt_rows vt_seq];
      try reflexivity; apply sublist_filter.
  - destruct (post_api_videos_cases db body now)
      as [(k & -> & _ & _ & Hk & Ht)|[(-> & _)|(e & -> & _)]];
      try exact Hwf.
    apply well_formed_insert_video; assumption.
  - unfold delete_api_videos_id, delete_video.
    destruct (videos_table db) as [t|] eqn:Ht; [|exact Hwf]. cbn [fst].
    apply (well_formed_sublist db); [exact Hwf|..];
      unfold videos, videos_seq; rewrite ?Ht;
      cbn [levels levels_seq videos_table vt_rows vt_seq];
      try reflexivity; apply sublist_filter.
Qed.

Lemma empty_database_well_formed : well_formed empty_database.
Proof. repeat split; constructor. Qed.

Lemma started_well_formed : well_formed started.
Proof. repeat split; constructor. Qed.

Lemma rtc_handles_well_formed (db db' : database) :
  rtc handles db db' -> well_formed db -> well_formed db'.
Proof.
  induction 1 as [|db db1 db2 H _ IH]; [tauto|].
  intros Hwf. apply IH, (handles_well_formed _ _ H Hwf).
Qed.

Lemma reachable_well_formed (db : database) :
  reachable db -> well_formed db.
Proof.
  induction 1 as [| |order clock db Ho _ IH|db body now _ IH|db id body _ IH
                 |db id _ IH|db body now _ IH|db id _ IH];
    [apply empty_database_well_formed | apply started_well_formed|..];
    (eapply handles_well_formed; [|exact IH]).
  - apply handles_seed, Ho.
  - apply handles_post_level.
  - apply handles_put_level.
  - apply handles_delete_level.
  - apply handles_post_video.
  - apply handles_delete_video.
Qed.

(** X21: in every database the server can reach, the ids of either table
    are positive, grow strictly along the table and do not exceed the
    table's AUTOINCREMENT counter. *)
Theorem reachable_rowids_in_order (db : database) :
  reachable db ->
  rowids_in_order (levels_seq db) (Level.id <$> levels db) /\
  rowids_in_order (videos_seq db) (Video.id <$> videos db).
Proof.
  intros (Hl & Hv & _)%reachable_well_formed. split; assumption.
Qed.

(** X22: in every database the server can reach, every level and every
    video has a text for its title: NOT NULL keeps NULL out, and the TEXT
    column turns whatever else was sent into text. *)
Theorem reachable_titles_are_text (db : database) :
  reachable db ->
  (forall r, r ∈ levels db -> exists s, Level.title r = SText s) /\
  (forall v, v ∈ videos db -> exists s, Video.title v = SText s).
Proof.
  intros (_ & _ & Hl & Hv & _)%reachable_well_formed.
  rewrite Forall_forall in Hl. rewrite Forall_forall in Hv.
  split; assumption.
Qed.

Lemma numbers_distinct_lookup (ls : list Level.t) (i j : nat)
    (a b : Level.t) :
  numbers_distinct ls -> (i < j)%nat ->
  ls !! i = Some a -> ls !! j = Some b ->
  sql_eq (Level.number a) (Level.number b) = false.
Proof.
  revert i j. induction ls as [|r ls IH]; intros i j Hnd Hij Ha Hb;
    [discriminate|].
  destruct Hnd as [Hr Hls]. destruct j as [|j]; [lia|]. cbn in Hb.
  destruct i as [|i]; cbn in Ha.
  - injection Ha as <-. rewrite Forall_forall in Hr. apply Hr.
    eapply list_elem_of_lookup_2, Hb.
  - apply (IH i j); [assumption | lia | assumption | assumption].
Qed.

Lemma numbers_distinct_lookup_ne (ls : list Level.t) (i j : nat)
    (a b : Level.t) :
  numbers_distinct ls -> i <> j ->
  ls !! i = Some a -> ls !! j = Some b ->
  sql_eq (Level.number a) (Level.number b) = false.
Proof.
  intros Hnd Hij Ha Hb.
  destruct (Nat.lt_total i j) as [H|[H|H]]; [|contradiction|].
  - apply (numbers_distinct_lookup ls i j); assumption.
  - rewrite sql_eq_sym. apply (numbers_distinct_lookup ls j i); assumption.
Qed.

(** X23: in every database the server can reach, two different rows of
    [levels] never hold the same number, unless that number is NULL. *)
Theorem reachable_numbers_unique (db : database) (i j : nat)
    (a b : Level.t) :
  reachable db -> i <> j ->
  levels db !! i = Some a -> levels db !! j = Some b ->
  Level.number a = Level.number b -> Level.number a = SNull.
Proof.
  intros (_ & _ & _ & _ & Hnd & _)%reachable_well_formed Hij Ha Hb E.
  apply sql_eq_refl_null. rewrite E at 2.
  apply (numbers_distinct_lookup_ne (levels db) i j); assumption.
Qed.

(** X24: on a database the server can reach, a replace that sends the
    level's own number back is never refused for that number: with a title
    in the body it answers 200. *)
Theorem put_keeps_own_number (db : database) (id : string)
    (body : jsobject) (r : Level.t) :
  reachable db ->
  r ∈ levels db -> names_id id (Level.id r) ->
  affinity_integer (bind_param (field body "number")) = Level.number r ->
  is_null (affinity_text (bind_param (field body "title"))) = false ->
  (put_api_levels_id db id body).2 =
    mkres 200 (JsonMessage "Level updated successfully").
Proof.
  intros Hreach Hr Hid Hnum Ht.
  pose proof (reachable_well_formed _ Hreach) as (_ & _ & _ & _ & Hnd & _).
  rewrite put_api_levels_id_eq, (existsb_named db id r Hr Hid), Ht, Hnum.
  rewrite existsb_none; [reflexivity|].
  intros r' Hr'. destruct (level_has_id (SText id) r') eqn:E; [reflexivity|].
  cbn [negb andb].
  apply list_elem_of_lookup in Hr as [i Hi], Hr' as [j Hj].
  apply (numbers_distinct_lookup_ne (levels db) j i); try assumption.
  intros ->. assert (r' = r) as -> by congruence.
  apply level_has_id_text in Hid. congruence.
Qed.

(** ** What the seeding leaves behind *)

Lemma largest_rowid_snoc (ids : list Z) (id : Z) :
  largest_rowid (ids ++ [id]) = Z.max (largest_rowid ids) id.
Proof.
  induction ids as [|x ids IH].
  - cbn. lia.
  - change (largest_rowid ((x :: ids) ++ [id]))
      with (Z.max x (largest_rowid (ids ++ [id]))).
    change (largest_rowid (x :: ids)) with (Z.max x (largest_rowid ids)).
    rewrite IH. lia.
Qed.

Lemma insertSampleLevel_room (now : string) (db : database)
    (level : jsobject) (n : Z) :
  levels_room (n + 1) db -> levels_room n (insertSampleLevel now db level).
Proof.
  unfold levels_room. intros Hroom.
  destruct (settled db level) eqn:E.
  - rewrite insertSampleLevel_settled by exact E. lia.
  - destruct (insertSampleLevel_unsettled now db level E)
      as (id & [_ ->]%new_rowid_ok & ->).
    cbn [levels levels_seq]. rewrite fmap_snoc. cbn [sample_row Level.id].
    unfold used_rowid in *. rewrite largest_rowid_snoc. lia.
Qed.

Lemma insertSampleLevel_present (now : string) (db : database)
    (level : jsobject) :
  levels_room 1 db ->
  is_null (affinity_text (bind_param (field level "title"))) = false ->
  is_null (affinity_integer (bind_param (field level "number"))) = false ->
  existsb (level_has_number (bind_param (field level "number")))
    (levels (insertSampleLevel now db level)) = true.
Proof.
  intros Hroom Ht Hn.
  pose proof (settled_after_step now db level Hn) as Hs.
  destruct (settled db level) eqn:E.
  - rewrite insertSampleLevel_settled in * by exact E.
    unfold settled in E. rewrite (new_rowid_room _ _ Hroom), Ht in E.
    exact E.
  - destruct (insertSampleLevel_unsettled now db level E) as (id & _ & ->).
    cbn [levels]. rewrite existsb_app. apply orb_true_iff. right.
    cbn [existsb]. rewrite orb_false_r.
    unfold level_has_number. cbn [sample_row Level.number].
    apply int_column_eq_affinity, Hn.
Qed.

Lemma foldl_insertSampleLevel_present (clock : jsobject -> string)
    (samples : list jsobject) (db : database) (level : jsobject) :
  levels_room (Z.of_nat (length samples)) db ->
  (forall l, l ∈ samples ->
     is_null (affinity_text (bind_param (field l "title"))) = false /\
     is_null (affinity_integer (bind_param (field l "number"))) = false) ->
  level ∈ samples ->
  existsb (level_has_number (bind_param (field level "number")))
    (levels (foldl (fun d l => insertSampleLevel (clock l) d l) db samples))
  = true.
Proof.
  revert db. induction samples as [|l samples IH]; intros db Hroom Hok Hin;
    [inversion Hin|].
  cbn [foldl]. cbn [length] in Hroom.
  assert (levels_room (Z.of_nat (length samples))
            (insertSampleLevel (clock l) db l)) as Hroom'.
  { apply insertSampleLevel_room.
    replace (Z.of_nat (length samples) + 1) with (Z.of_nat (S (length samples)))
      by lia.
    exact Hroom. }
  apply elem_of_cons in Hin as [->|Hin].
  - assert (existsb (level_has_number (bind_param (field l "number")))
              (levels (insertSampleLevel (clock l) db l)) = true) as Hnow.
    { destruct (Hok l) as [Ht Hn]; [left|].
      apply insertSampleLevel_present; try assumption.
      unfold levels_room in *. lia. }
    clear IH Hroom Hroom' Hok. revert Hnow.
    generalize (insertSampleLevel (clock l) db l). clear db.
    induction samples as [|l' samples IH]; intros db H; [exact H|].
    cbn [foldl]. apply IH, insertSampleLevel_keeps_found, H.
  - apply IH; [exact Hroom'| |exact Hin].
    intros l' Hl'. apply Hok. right. exact Hl'.
Qed.

Lemma sampleLevels_storable (level : jsobject) :
  level ∈ sampleLevels ->
  is_null (affinity_text (bind_param (field level "title"))) = false /\
  is_null (affinity_integer (bind_param (field level "number"))) = false.
Proof.
  rewrite sampleLevels_by_name. intros H.
  repeat (apply elem_of_cons in H as [->|H]); [| | |inversion H];
    split; vm_compute; reflexivity.
Qed.

Lemma real_int_value (r : real) (n : Z) :
  -9223372036854775808 < n < 9223372036854775807 ->
  real_eqb r (real_of_int n) = true -> real_int r = Some n.
Proof.
  intros [H1 H2]. destruct r as [q|[]]; [|discriminate..].
  intros E%real_eqb_Qeq. unfold real_int.
  assert (Qfloor q = n) as ->.
  { rewrite (Qfloor_comp _ _ E). apply Qfloor_Z. }
  rewrite (proj2 (Qeq_bool_iff _ _) E).
  rewrite (proj2 (Z.ltb_lt _ _) H1), (proj2 (Z.ltb_lt _ _) H2). reflexivity.
Qed.

(** A value the column holds that equals an integer is that integer. *)
Lemma stored_integer_eq_int (v : sqlval) (n : Z) :
  stored_integer v -> -9223372036854775808 < n < 9223372036854775807 ->
  sql_eq v (SInt n) = true -> v = SInt n.
Proof.
  intros Hs Hn. destruct v as [|m|r|s]; cbn -[real_eqb]; try discriminate.
  - rewrite real_eqb_ints. intros ->%Z.eqb_eq. reflexivity.
  - intros E. pose proof (real_int_value r n Hn E) as Hr.
    unfold stored_integer, affinity_integer, numeric_affinity,
      integer_of_real in Hs.
    rewrite Hr in Hs. discriminate.
Qed.

Lemma insertSampleData_numbers_stored (order : list jsobject)
    (clock : jsobject -> string) (db : database) :
  numbers_stored db -> numbers_stored (insertSampleData order clock db).
Proof.
  unfold insertSampleData. revert db.
  induction order as [|l order IH]; intros db H; [exact H|].
  cbn [foldl]. apply IH.
  destruct (settled db l) eqn:E.
  - rewrite insertSampleLevel_settled; assumption.
  - destruct (insertSampleLevel_unsettled (clock l) db l E) as (id & _ & ->).
    unfold numbers_stored. cbn [levels].
    apply Forall_app. split; [exact H|]. repeat constructor.
    apply affinity_integer_stored.
Qed.

(** X25: after a run of the seeding, in whatever order its inserts come, on
    a database whose [levels] table has three rowids left, a level with
    number 1, one with number 2 and one with number 3 are stored: for each
    of the three numbers the table has a row that [WHERE number = ?]
    selects, and the row holds that very integer when the table held every
    number as the column stores it, as the tables of SQLite do. *)
Theorem insertSampleData_completes (order : list jsobject)
    (clock : jsobject -> string) (db : database) (n : Z) :
  order ≡ₚ sampleLevels -> levels_room 3 db -> n ∈ [1; 2; 3] ->
  exists r,
    r ∈ levels (insertSampleData order clock db) /\
    level_has_number (SInt n) r = true /\
    (numbers_stored db -> Level.number r = SInt n).
Proof.
  intros Horder Hroom Hn.
  assert (exists level, level ∈ sampleLevels /\
            bind_param (field level "number") = SInt n) as (level & Hin & E).
  { rewrite sampleLevels_by_name.
    repeat (apply elem_of_cons in Hn as [->|Hn]); [| | |inversion Hn].
    - exists festivals. split; [left | vm_compute; reflexivity].
    - exists folk_arts. split; [right; left | vm_compute; reflexivity].
    - exists mythology. split; [do 2 right; left | vm_compute; reflexivity]. }
  assert (-9223372036854775808 < n < 9223372036854775807) as Hrange.
  { repeat (apply elem_of_cons in Hn as [->|Hn]); [| | |inversion Hn]; lia. }
  assert (length order = 3%nat) as Hlen.
  { rewrite Horder. reflexivity. }
  pose proof (foldl_insertSampleLevel_present clock order db level) as H.
  rewrite Hlen in H. specialize (H Hroom).
  apply existsb_exists in H as (r & Hr & Hnum).
  - apply list_elem_of_In in Hr. exists r. rewrite E in Hnum.
    split; [exact Hr|]. split; [exact Hnum|]. intros Hstored.
    pose proof (insertSampleData_numbers_stored order clock db Hstored) as Hs.
    unfold numbers_stored in Hs. rewrite Forall_forall in Hs.
    specialize (Hs r Hr). unfold level_has_number in Hnum.
    rewrite (int_column_eq_stored _ _ Hs) in Hnum.
    apply (stored_integer_eq_int _ _ Hs Hrange Hnum).
  - intros l Hl. apply sampleLevels_storable. rewrite <- Horder. exact Hl.
  - rewrite Horder. exact Hin.
Qed.

(** ** The start of the server and the schedules of the seeding *)

(** X29: the first statement of [initializeDatabase] parses and the second
    does not, so a start makes sure of [levels], leaves [videos] as the file
    has it and never reaches the seeding; on a new file the server starts
    with an empty [levels] and without [videos]. *)
Theorem start_never_seeds (order : list jsobject)
    (clock : jsobject -> string) (f : dbfile) :
  prepare create_levels_sql = Ok tt /\
  prepare create_videos_sql = Err (SyntaxError "/") /\
  initializeDatabase order clock f =
    mkfile (Some (default (mklt [] 0) (file_levels f))) (file_videos f) /\
  started = mkdb [] 0 None.
Proof. repeat split. Qed.

(** X30: whatever the handlers and the seeding do to the database of a
    started server, no [videos] table comes to be: every route that touches
    [videos] answers 500 and changes nothing. *)
Theorem videos_table_never_made (db : database) :
  rtc handles started db ->
  get_api_videos db =
    mkres 500 (JsonError "SQLITE_ERROR: no such table: videos") /\
  (forall levelId,
     get_api_videos_level db levelId =
       mkres 500 (JsonError "SQLITE_ERROR: no such table: videos")) /\
  (forall id,
     get_api_videos_id db id =
       mkres 500 (JsonError "SQLITE_ERROR: no such table: videos")) /\
  (forall id,
     delete_api_videos_id db id =
       (db, mkres 500 (JsonError "SQLITE_ERROR: no such table: videos"))) /\
  (forall id,
     delete_api_levels_id db id =
       (db, mkres 500 (JsonError "SQLITE_ERROR: no such table: videos"))) /\
  (forall body now',
     truthy (field body "videoData") = true ->
     post_api_videos db body now' =
       (db, mkres 500 (JsonError "SQLITE_ERROR: no such table: videos"))).
Proof.
  intros (_ & _ & H)%rtc_handles_seq.
  apply videos_routes_without_table, H. reflexivity.
Qed.

(** X28: whatever the schedule of the lookups and the inserts of a seeding,
    the database it leaves is the one [insertSampleData] gives for the order
    in which the inserts ran. *)
Theorem seeding_schedule (clock : jsobject -> string) (db : database)
    (events : list seeding_event) :
  schedule events ->
  run_seeding clock db events = insertSampleData (inserts events) clock db.
Proof.
  intros H. unfold run_seeding, insertSampleData.
  apply (seeding_steps clock events [] []); try assumption;
    intros l Hl; inversion Hl.
Qed.
End Server.

(** * Worked instances

    The properties above hold whatever the engine.  Below they are applied
    to concrete requests, read and written by [decimal_engine]. *)

Lemma library_reachable : reachable library.
Proof.
  unfold library, seeded.
  do 3 apply reach_post_video. apply reach_seed; [reflexivity|].
  apply reach_empty.
Defined.

Lemma library_primary_key : primary_key library.
Proof.
  destruct (reachable_well_formed _ library_reachable) as (Hl & Hv & _).
  split; eapply rowids_in_order_NoDup; eassumption.
Defined.

Lemma library_has_videos_table : has_videos_table library.
Proof. unfold has_videos_table. vm_compute. discriminate. Defined.

Lemma upload_without_video_data_witness :
  post_api_videos (seeded "2024-01-01 00:00:00")
    (delete "videoData" (clip (JStr "AAAA"))) "2024-01-02 00:00:00" =
    (seeded "2024-01-01 00:00:00",
     mkres 400 (JsonError "No video data provided")).
Proof.
  apply upload_without_video_data. vm_compute. reflexivity.
Defined.

Lemma upload_with_falsy_video_data_witness :
  post_api_videos (seeded "2024-01-01 00:00:00") (clip (JStr ""))
    "2024-01-02 00:00:00" =
    (seeded "2024-01-01 00:00:00",
     mkres 400 (JsonError "No video data provided")).
Proof.
  apply upload_with_falsy_video_data. vm_compute. reflexivity.
Defined.

Lemma levels_listed_by_number_witness :
  exists id row,
    res_body (post_api_levels (seeded "2024-01-01 00:00:00")
                (<["number" := JStr "+6"]> dance_forms)
                "2024-01-02 00:00:00").2 =
      JsonCreated id "Level created successfully" /\
    row ∈ select_levels
            (post_api_levels (seeded "2024-01-01 00:00:00")
               (<["number" := JStr "+6"]> dance_forms)
               "2024-01-02 00:00:00").1 /\
    Level.id row = id /\
    Level.number row = SInt 6.
Proof.
  destruct (levels_listed_by_number (seeded "2024-01-01 00:00:00"))
    as (_ & _ & _ & H).
  destruct (H (<["number" := JStr "+6"]> dance_forms) "2024-01-02 00:00:00"
              (post_api_levels (seeded "2024-01-01 00:00:00")
                 (<["number" := JStr "+6"]> dance_forms)
                 "2024-01-02 00:00:00").1
              (post_api_levels (seeded "2024-01-01 00:00:00")
                 (<["number" := JStr "+6"]> dance_forms)
                 "2024-01-02 00:00:00").2)
    as (id & row & H1 & _ & H2 & H3 & H4 & _).
  - apply surjective_pairing.
  - vm_compute. reflexivity.
  - exists id, row. repeat split; assumption.
Defined.

(** C6 as stated fails: a payload that is the number 123 is stored by the
    TEXT column as the text "123", and that text is what the fetch sends
    back. *)
Lemma number_payload_comes_back_as_text :
  (post_api_videos empty_database (clip (JNum 123)) "t").2 =
    mkres 200 (JsonCreated 1 "Video uploaded successfully") /\
  exists row,
    get_api_videos_id
      (post_api_videos empty_database (clip (JNum 123)) "t").1 "1" =
      mkres 200 (JsonVideo row) /\
    json_of (Video.video_data row) = JStr "123" /\
    json_of (Video.video_data row) <> JNum 123.
Proof.
  split; [vm_compute; reflexivity|].
  eexists. split; [vm_compute; reflexivity|].
  split; [reflexivity | discriminate].
Qed.

Lemma upload_then_fetch_returns_payload_witness :
  exists id row,
    get_api_videos_id
      (post_api_videos (seeded "2024-01-01 00:00:00") (clip (JStr "AAAA"))
         "2024-01-02 00:00:00").1 (text_of_int id) =
      mkres 200 (JsonVideo row) /\
    json_of (Video.video_data row) = JStr "AAAA".
Proof.
  destruct (upload_then_fetch_returns_payload
              (seeded "2024-01-01 00:00:00")
              (post_api_videos (seeded "2024-01-01 00:00:00")
                 (clip (JStr "AAAA")) "2024-01-02 00:00:00").1
              (clip (JStr "AAAA")) "2024-01-02 00:00:00" "AAAA"
              (post_api_videos (seeded "2024-01-01 00:00:00")
                 (clip (JStr "AAAA")) "2024-01-02 00:00:00").2)
    as (id & row & _ & H1 & _ & H2).
  - reflexivity.
  - apply surjective_pairing.
  - vm_compute. reflexivity.
  - exists id, row. auto.
Defined.

Lemma sample_order : [mythology; festivals; folk_arts] ≡ₚ sampleLevels.
Proof.
  rewrite sampleLevels_by_name.
  etransitivity; [apply perm_swap | apply perm_skip, perm_swap].
Defined.

Lemma insertSampleData_idempotent_witness :
  insertSampleData [mythology; festivals; folk_arts] (fun _ => "t2")
    (insertSampleData sampleLevels (fun _ => "t1")
       (delete_api_levels_id library "2").1) =
  insertSampleData sampleLevels (fun _ => "t1")
    (delete_api_levels_id library "2").1.
Proof.
  destruct (insertSampleData_idempotent sampleLevels
              [mythology; festivals; folk_arts] (fun _ => "t1")
              (delete_api_levels_id library "2").1)
    as (_ & _ & H).
  - reflexivity.
  - exact sample_order.
  - apply H.
Defined.

Lemma create_level_without_title_witness :
  (post_api_levels library (delete "title" dance_forms) "t").1 = library /\
  res_status (post_api_levels library (delete "title" dance_forms) "t").2
    = 500.
Proof.
  destruct (create_level_without_title library (delete "title" dance_forms)
              "t") as (H1 & H2 & _).
  - vm_compute. left.
  - split; assumption.
Defined.

Lemma create_level_taken_number_witness :
  (post_api_levels library (<["number" := JNum 2]> dance_forms) "t").1
    = library /\
  res_body (post_api_levels library (<["number" := JNum 2]> dance_forms)
              "t").2 =
    JsonError "SQLITE_CONSTRAINT: UNIQUE constraint failed: levels.number".
Proof.
  destruct (create_level_taken_number library
              (<["number" := JNum 2]> dance_forms) "t"
              (sample_row 2 folk_arts "2024-01-01 00:00:00") 2)
    as (H1 & _ & H2).
  - vm_compute. right. left.
  - reflexivity.
  - reflexivity.
  - split; [exact H1|]. apply H2; [vm_compute; discriminate | reflexivity].
Defined.

Lemma fetch_by_id_found_witness :
  get_api_levels_id library "2.0" =
    mkres 200
      (JsonLevel (Some (sample_row 2 folk_arts "2024-01-01 00:00:00"))).
Proof.
  apply fetch_by_id_found.
  - exact library_primary_key.
  - vm_compute. right. left.
  - reflexivity.
Defined.

Lemma create_level_then_fetch_witness :
  exists id,
    get_api_levels_id (post_api_levels library dance_forms "t").1
      (text_of_int id) =
      mkres 200 (JsonLevel (Some (created_level id dance_forms "t"))).
Proof.
  destruct (create_level_then_fetch library
              (post_api_levels library dance_forms "t").1 dance_forms "t"
              (post_api_levels library dance_forms "t").2)
    as (id & _ & H).
  - apply surjective_pairing.
  - vm_compute. reflexivity.
  - exists id. exact H.
Defined.

Lemma upload_needs_no_level_witness :
  res_status
    (post_api_videos empty_database (clip_of (JNum 9) "Lost") "t").2 = 200.
Proof.
  rewrite upload_needs_no_level.
  - reflexivity.
  - discriminate.
  - reflexivity.
  - reflexivity.
  - unfold videos_room. vm_compute. discriminate.
Defined.

Lemma put_replaces_whole_record_witness :
  Level.title <$> levels (put_api_levels_id library "2.0" dance_forms).1 =
    [SText "Festivals & Celebrations"; SText "Dance Forms";
     SText "Mythology & Epics"] /\
  length (levels (put_api_levels_id library "2.0" dance_forms).1) = 3%nat.
Proof.
  destruct (put_replaces_whole_record library
              (put_api_levels_id library "2.0" dance_forms).1 "2.0"
              dance_forms
              (put_api_levels_id library "2.0" dance_forms).2)
    as (_ & H & _).
  - apply surjective_pairing.
  - vm_compute. reflexivity.
  - split; [vm_compute; reflexivity | exact H].
Defined.

Lemma put_omitted_fields_become_null_witness :
  Level.description
    (replaced_level (sample_row 2 folk_arts "2024-01-01 00:00:00")
       dance_forms) = SNull /\
  Level.status
    (replaced_level (sample_row 2 folk_arts "2024-01-01 00:00:00")
       dance_forms) = SNull.
Proof.
  destruct (put_omitted_fields_become_null library
              (put_api_levels_id library "2" dance_forms).1 "2" dance_forms
              (put_api_levels_id library "2" dance_forms).2
              (replaced_level
                 (sample_row 2 folk_arts "2024-01-01 00:00:00") dance_forms))
    as (_ & H1 & _ & H2 & _).
  - apply surjective_pairing.
  - vm_compute. reflexivity.
  - vm_compute. right. left.
  - reflexivity.
  - split; [apply H1 | apply H2]; reflexivity.
Defined.

Lemma put_without_title_witness :
  put_api_levels_id library "2" (delete "title" dance_forms) =
    (library,
     mkres 500
       (JsonError
          "SQLITE_CONSTRAINT: NOT NULL constraint failed: levels.title")).
Proof.
  apply (put_without_title library "2" (delete "title" dance_forms)
           (sample_row 2 folk_arts "2024-01-01 00:00:00")).
  - vm_compute. right. left.
  - reflexivity.
  - vm_compute. left.
Defined.


Lemma delete_video_then_fetch_witness :
  get_api_videos_id (delete_api_videos_id library "1.0").1 "1.0" =
    mkres 404 (JsonError "Video not found") /\
  Video.id <$> videos (delete_api_videos_id library "1.0").1 = [2; 3].
Proof.
  destruct (delete_video_then_fetch library "1.0") as (_ & _ & _ & _ & H).
  - exact library_has_videos_table.
  - split; [exact H | vm_compute; reflexivity].
Defined.

Lemma level_ids_never_reused_witness :
  exists id id' : Z,
    res_body (post_api_levels library dance_forms "t1").2 =
      JsonCreated id "Level created successfully" /\
    res_body
      (post_api_levels
         (delete_api_levels_id (post_api_levels library dance_forms "t1").1
            "4").1 dance_forms "t2").2 =
      JsonCreated id' "Level created successfully" /\
    id < id'.
Proof.
  exists 4, 5.
  split; [vm_compute; reflexivity|]. split; [vm_compute; reflexivity|].
  apply (level_ids_never_reused library
           (post_api_levels library dance_forms "t1").1
           (delete_api_levels_id (post_api_levels library dance_forms "t1").1
              "4").1
           (post_api_levels
              (delete_api_levels_id
                 (post_api_levels library dance_forms "t1").1 "4").1
              dance_forms "t2").1
           dance_forms dance_forms "t1" "t2"
           "Level created successfully" "Level created successfully"
           (post_api_levels library dance_forms "t1").2
           (post_api_levels
              (delete_api_levels_id
                 (post_api_levels library dance_forms "t1").1 "4").1
              dance_forms "t2").2).
  - apply surjective_pairing.
  - vm_compute. reflexivity.
  - apply rtc_once. apply handles_delete_level.
  - apply surjective_pairing.
  - vm_compute. reflexivity.
Defined.

Lemma reachable_rowids_in_order_witness :
  rowids_in_order (levels_seq (one_level "t1"))
    (Level.id <$> levels (one_level "t1")) /\
  rowids_in_order (videos_seq (one_level "t1"))
    (Video.id <$> videos (one_level "t1")).
Proof.
  apply reachable_rowids_in_order.
  apply reach_post_level, reach_started.
Defined.

Lemma reachable_titles_are_text_witness :
  exists s,
    Level.title (sample_row 2 folk_arts "2024-01-01 00:00:00") = SText s.
Proof.
  apply (reachable_titles_are_text library library_reachable).
  vm_compute. right. left.
Defined.

Lemma reachable_numbers_unique_witness :
  Level.number
    (sample_row 5 (<["number" := JNull]> dance_forms) "t2") = SNull.
Proof.
  apply (reachable_numbers_unique
           (post_api_levels
              (post_api_levels library (<["number" := JNull]> dance_forms)
                 "t1").1
              (<["number" := JNull]> dance_forms) "t2").1
           4 3
           (sample_row 5 (<["number" := JNull]> dance_forms) "t2")
           (sample_row 4 (<["number" := JNull]> dance_forms) "t1")).
  - do 2 apply reach_post_level. exact library_reachable.
  - discriminate.
  - vm_compute. reflexivity.
  - vm_compute. reflexivity.
  - reflexivity.
Defined.

Lemma put_keeps_own_number_witness :
  (put_api_levels_id library "2" (<["number" := JStr "2.0"]> dance_forms)).2 =
    mkres 200 (JsonMessage "Level updated successfully").
Proof.
  apply (put_keeps_own_number library "2"
           (<["number" := JStr "2.0"]> dance_forms)
           (sample_row 2 folk_arts "2024-01-01 00:00:00")).
  - exact library_reachable.
  - vm_compute. right. left.
  - reflexivity.
  - reflexivity.
  - reflexivity.
Defined.

Lemma insertSampleData_completes_witness :
  exists r,
    r ∈ levels (insertSampleData [mythology; festivals; folk_arts]
                  (fun _ => "t") (delete_api_levels_id library "2").1) /\
    Level.number r = SInt 2.
Proof.
  destruct (insertSampleData_completes [mythology; festivals; folk_arts]
              (fun _ => "t") (delete_api_levels_id library "2").1 2)
    as (r & Hr & _ & H).
  - exact sample_order.
  - unfold levels_room. vm_compute. discriminate.
  - vm_compute. right. left.
  - exists r. split; [exact Hr|]. apply H.
    apply reachable_well_formed, reach_delete_level, library_reachable.
Defined.

Lemma delete_level_keeps_owners_witness :
  sample_row 1 festivals "2024-01-01 00:00:00"
    ∈ levels (delete_api_levels_id library "3").1.
Proof.
  apply (delete_level_keeps_owners library "3"
           (created_video 3 (clip_of (JNum 1) "Holi") "t3")).
  - vm_compute. right. left.
  - vm_compute. left.
  - reflexivity.
Defined.

Lemma create_level_accepted_witness :
  (post_api_levels library dance_forms "t").2 =
    mkres 200 (JsonCreated 4 "Level created successfully").
Proof.
  rewrite create_level_accepted.
  - vm_compute. reflexivity.
  - unfold levels_room. vm_compute. discriminate.
  - reflexivity.
  - intros r Hr. vm_compute in Hr.
    repeat (apply elem_of_cons in Hr as [->|Hr]); [| | |inversion Hr];
      vm_compute; reflexivity.
Defined.

Lemma videos_table_never_made_witness :
  delete_api_levels_id (one_level "t1") "1" =
    (one_level "t1",
     mkres 500 (JsonError "SQLITE_ERROR: no such table: videos")) /\
  post_api_videos (one_level "t1") (clip (JStr "AAAA")) "t2" =
    (one_level "t1",
     mkres 500 (JsonError "SQLITE_ERROR: no such table: videos")).
Proof.
  destruct (videos_table_never_made (one_level "t1"))
    as (_ & _ & _ & _ & H1 & H2).
  - apply rtc_once, handles_post_level.
  - split; [apply H1 | apply H2; reflexivity].
Defined.

Lemma festivals_sample : festivals ∈ sampleLevels.
Proof. rewrite sampleLevels_by_name. left. Defined.

Lemma folk_arts_sample : folk_arts ∈ sampleLevels.
Proof. rewrite sampleLevels_by_name. right. left. Defined.

Lemma mythology_sample : mythology ∈ sampleLevels.
Proof. rewrite sampleLevels_by_name. do 2 right. left. Defined.

Lemma sample_numbers_differ (l l' : jsobject) :
  field l "number" <> field l' "number" -> l <> l'.
Proof. intros H ->. apply H. reflexivity. Defined.

(** All lookups are answered before the first insert runs, and the inserts
    run in another order than the lookups. *)
Lemma seeding_schedule_witness :
  run_seeding (fun _ => "t") empty_database
    [Lookup festivals; Lookup folk_arts; Lookup mythology;
     Insert mythology; Insert festivals; Insert folk_arts] =
  insertSampleData [mythology; festivals; folk_arts] (fun _ => "t")
    empty_database.
Proof.
  apply (seeding_schedule (fun _ => "t") empty_database
           [Lookup festivals; Lookup folk_arts; Lookup mythology;
            Insert mythology; Insert festivals; Insert folk_arts]).
  unfold schedule. cbn [scheduled].
  repeat split;
    try exact festivals_sample; try exact folk_arts_sample;
    try exact mythology_sample;
    rewrite ?not_elem_of_cons; repeat split;
    try apply not_elem_of_nil; try set_solver;
    try (apply sample_numbers_differ; vm_compute; discriminate).
Defined.

Lemma delete_level_removes_its_videos_witness :
  get_api_videos_level (delete_api_levels_id library "3.0").1 "3.0" =
    mkres 200 (JsonVideos []) /\
  Level.id <$> levels (delete_api_levels_id library "3.0").1 = [1; 2] /\
  Video.title <$> videos (delete_api_levels_id library "3.0").1 =
    [SText "Lost"; SText "Holi"].
Proof.
  destruct (delete_level_removes_its_videos library "3.0")
    as (_ & _ & _ & H).
  - exact library_has_videos_table.
  - split; [exact H|]. split; vm_compute; reflexivity.
Defined.

Lemma absent_video_404_absent_level_200_witness :
  get_api_videos_id library "7" = mkres 404 (JsonError "Video not found") /\
  get_api_levels_id library "7" = mkres 200 (JsonLevel None).
Proof.
  destruct (absent_video_404_absent_level_200 library "7") as (H1 & H2 & _).
  split.
  - apply H1; [exact library_has_videos_table|].
    apply (bool_decide_unpack _). vm_compute. exact I.
  - apply H2.
    apply (bool_decide_unpack _). vm_compute. exact I.
Defined.

Lemma writes_to_absent_ids_report_success_witness :
  put_api_levels_id library "9" dance_forms =
    (library, mkres 200 (JsonMessage "Level updated successfully")) /\
  delete_api_videos_id library "9" =
    (library, mkres 200 (JsonMessage "Video deleted successfully")).
Proof.
  destruct (writes_to_absent_ids_report_success library "9" dance_forms)
    as (H1 & H2).
  split.
  - apply H1.
    apply (bool_decide_unpack _). vm_compute. exact I.
  - apply H2; [exact library_has_videos_table|].
    apply (bool_decide_unpack _). vm_compute. exact I.
Defined.

Lemma videos_listed_with_levels_witness :
  exists rows,
    get_api_videos library = mkres 200 (JsonJoined rows) /\
    Joined.video <$> rows ≡ₚ videos library /\
    ascending Joined.level_number rows.
Proof.
  destruct (videos_listed_with_levels library)
    as (rows & H0 & H1 & _ & H2 & _).
  - exact library_has_videos_table.
  - exact library_primary_key.
  - exists rows. auto.
Defined.

(** ** Numbers written as text, and numbers too large for 32 bits *)

(** A route parameter is compared as a number: each of these texts selects
    the level with id 1. *)
Example route_parameter_read_as_number :
  get_api_levels_id library <$> ["1"; "1.0"; "+1"; "1e0"; " 1"; "1 "] =
  replicate 6
    (mkres 200
       (JsonLevel (Some (sample_row 1 festivals "2024-01-01 00:00:00")))).
Proof. vm_compute. reflexivity. Qed.

(** A text that does not read as a number selects no level. *)
Example route_parameter_not_a_number :
  get_api_levels_id library <$> ["one"; "1x"; "0x1"; "1.5"] =
  replicate 4 (mkres 200 (JsonLevel None)).
Proof. vm_compute. reflexivity. Qed.

(** The [number] and [points] columns store a text that reads as a number
    as that number. *)
Example number_text_stored_as_integer :
  (fun number =>
     Level.number <$>
       levels (post_api_levels started
                 (<["number" := JStr number]>
                    (<["points" := JStr number]> dance_forms)) "t1").1) <$>
    ["+6"; " 5"; "1e2"; "3.0"; "six"; "1.5"] =
  [[SInt 6]; [SInt 5]; [SInt 100]; [SInt 3]; [SText "six"];
   [SReal (Finite (15 # 10))]].
Proof. vm_compute. reflexivity. Qed.

(** So the text "3.0" collides with a stored 3. *)
Example number_text_collides :
  post_api_levels library (<["number" := JStr "3.0"]> dance_forms) "t" =
    (library,
     mkres 500
       (JsonError
          "SQLITE_CONSTRAINT: UNIQUE constraint failed: levels.number")).
Proof. vm_compute. reflexivity. Qed.

(** A number beyond 32 bits is bound as a double: an INTEGER column stores
    it as the integer it is, a TEXT column as the text of a REAL. *)
Example large_number_bound_as_double :
  (fun r => (Level.number r, Level.title r)) <$>
    levels (post_api_levels started
              (<["number" := JNum 4294967296]>
                 (<["title" := JNum 4294967296]> dance_forms)) "t1").1 =
  [(SInt 4294967296, SText "4294967296.0")].
Proof. vm_compute. reflexivity. Qed.

(** A replace and a delete under an id written with a point reach the
    row. *)
Example put_by_decimal_id :
  Level.title <$> levels (put_api_levels_id library "2.0" dance_forms).1 =
  [SText "Festivals & Celebrations"; SText "Dance Forms";
   SText "Mythology & Epics"].
Proof. vm_compute. reflexivity. Qed.

Example delete_video_by_decimal_id :
  Video.id <$> videos (delete_api_videos_id library "1.0").1 = [2; 3].
Proof. vm_compute. reflexivity. Qed.

(** A string with a lone surrogate does not come back as it went in: the
    driver stores U+FFFD in the place of the surrogate. *)
Example lone_surrogate_replaced :
  exists row,
    get_api_videos_id
      (post_api_videos empty_database (clip (JStrIll "�")) "t").1 "1" =
      mkres 200 (JsonVideo row) /\
    json_of (Video.video_data row) = JStr "�" /\
    json_of (Video.video_data row) <> JStrIll "�".
Proof.
  eexists. split; [vm_compute; reflexivity|].
  split; [reflexivity | discriminate].
Qed.

(** The listing of [library]: the orphaned video comes first, then the
    videos by level number. *)
Example library_listing :
  get_api_videos library =
  mkres 200
    (JsonJoined
       [Joined.mk (created_video 2 (clip_of (JNum 9) "Lost") "t2")
          SNull SNull;
        Joined.mk (created_video 3 (clip_of (JNum 1) "Holi") "t3")
          (SInt 1) (SText "Festivals & Celebrations");
        Joined.mk (created_video 1 (clip_of (JNum 3) "Ramayana") "t1")
          (SInt 3) (SText "Mythology & Epics")]).
Proof. vm_compute. reflexivity. Qed.
